(** * Profile_Saleh_AI: locale routing, dictionary delivery and backend proxies

    A shallow embedding of the TypeScript sources of the portfolio frontend:
    the locale registry ([i18n/locales]), the edge [proxy], the language
    switcher's [swapLocale], the dictionary loader, the page components'
    locale resolution and metadata, the two backend proxy routes with their
    clients ([BackendStatus], [ChatTester]) and the chat panel's
    [handleSend], typewriter and boot sequence.  JavaScript values are modelled as the code sees them at
    run time (TypeScript types are erased): a locale is a string, an object
    used as a table is a finite map keyed by strings, a promise that may
    reject is an [outcome]. *)

From Stdlib Require Import String Ascii ZArith NArith List Bool Lia.
From stdpp Require Import base option list gmap strings pretty.

Local Open Scope string_scope.

(** ** JavaScript string primitives used by the sources

    URL pathnames are ASCII serialisations (non-ASCII input is
    percent-encoded by the URL parser), so they are modelled by [string]. *)
Module JS.

(** [s.startsWith(p)] *)
Definition startsWith (s p : string) : bool := String.prefix p s.

(** [s.split(sep)] for a one-character separator: the empty string splits
    into one empty piece, and every occurrence of [sep] closes a piece. *)
Fixpoint split (sep : ascii) (s : string) : list string :=
  match s with
  | EmptyString => [EmptyString]
  | String c s' =>
      if Ascii.eqb c sep then EmptyString :: split sep s'
      else match split sep s' with
           | [] => [String c EmptyString]
           | piece :: pieces => String c piece :: pieces
           end
  end.

(** Truthiness of a string, as [Boolean(s)]: only the empty one is falsy. *)
Definition truthy (s : string) : bool :=
  match s with EmptyString => false | String _ _ => true end.

(** [parts.filter(Boolean)] *)
Definition filter_Boolean (parts : list string) : list string :=
  List.filter truthy parts.

(** [parts.join(sep)] *)
Fixpoint join (sep : string) (parts : list string) : string :=
  match parts with
  | [] => EmptyString
  | [p] => p
  | p :: rest => p +:+ sep +:+ join sep rest
  end.

(** [arr.includes(x)] where [x] may be [undefined] ([None]). *)
Definition includes (arr : list string) (x : option string) : bool :=
  match x with
  | None => false
  | Some v => existsb (String.eqb v) arr
  end.

(** [[^/]+$]: one or more characters up to the end, none of them [/]. *)
Fixpoint no_slash (s : string) : bool :=
  match s with
  | EmptyString => true
  | String c s' => negb (Ascii.eqb c "/") && no_slash s'
  end.

(** [/\.[^/]+$/.test(s)]: some position holds a dot that is followed, up to
    the end of the input, by at least one character and by no slash. *)
Fixpoint test_dot_extension (s : string) : bool :=
  match s with
  | EmptyString => false
  | String c s' =>
      (Ascii.eqb c "." && truthy s' && no_slash s') || test_dot_extension s'
  end.

End JS.

(** ** i18n/locales *)
Module Locales.

Definition SUPPORTED_LOCALES : list string := ["fr"; "en"].

Definition isLocale (value : string) : bool :=
  JS.includes SUPPORTED_LOCALES (Some value).

End Locales.

(** ** proxy.ts: the request router

    The function [proxy] alone is modelled; for which requests the framework
    calls it is decided by [config.matcher], outside the function. *)
Module Router.
Import Locales.

(** The parts of [request.nextUrl] that survive [clone()]. *)
Record NextURL := mkURL {
  origin : string;
  pathname : string;
  search : string;
  hash : string;
}.

Definition set_pathname (url : NextURL) (p : string) : NextURL :=
  {| origin := origin url; pathname := p;
     search := search url; hash := hash url |}.

(** [NextResponse.next()] and [NextResponse.redirect(url)]: the only two
    responses the function builds. *)
Inductive NextResponse :=
| next
| redirect (url : NextURL).

Definition PUBLIC_FILE_test (p : string) : bool := JS.test_dot_extension p.

(** The first guard of [proxy]. *)
Definition passes_untouched (p : string) : bool :=
  JS.startsWith p "/_next" || JS.startsWith p "/api" || PUBLIC_FILE_test p.

(** [pathname.split("/").filter(Boolean)[0]] *)
Definition firstSegment (p : string) : option string :=
  head (JS.filter_Boolean (JS.split "/" p)).

(** A path segment: non-empty and free of [/]. *)
Definition is_segment (s : string) : Prop :=
  s <> EmptyString /\ JS.no_slash s = true.

Definition proxy (nextUrl : NextURL) : NextResponse :=
  let p := pathname nextUrl in
  if passes_untouched p then next
  else if String.eqb p "/" then redirect (set_pathname nextUrl "/fr")
  else
    let hasLocale := JS.includes SUPPORTED_LOCALES (firstSegment p) in
    if negb hasLocale then redirect (set_pathname nextUrl ("/fr" +:+ p))
    else next.

End Router.

(** ** components/LanguageSwitcher.tsx *)
Module LanguageSwitcher.

(** [parts[0] = nextLocale] on a non-empty array. *)
Definition swapLocale (pathname nextLocale : string) : string :=
  let parts := JS.filter_Boolean (JS.split "/" pathname) in
  if (length parts =? 0)%nat then "/" +:+ nextLocale
  else "/" +:+ JS.join "/" (<[0%nat := nextLocale]> parts).

(** [usePathname() || "/"] and the choice of the other locale. *)
Definition href (usePathname : option string) (locale : string) : string :=
  let pathname :=
    match usePathname with
    | Some p => if JS.truthy p then p else "/"
    | None => "/"
    end in
  let otherLocale := if String.eqb locale "fr" then "en" else "fr" in
  swapLocale pathname otherLocale.

(** The pathname made of the given segments. *)
Definition path_of (segments : list string) : string :=
  "/" +:+ JS.join "/" segments.

End LanguageSwitcher.

(** ** Promises that may reject, and JSON values *)
Module Async.

(** The exceptions the modelled code can meet. *)
Inductive Exn :=
| TypeError (msg : string)
| SyntaxError (msg : string)
| RangeError (msg : string)
| NetworkError (msg : string)
| ModuleNotFound (specifier : string)
| NEXT_NOT_FOUND.

(** The settled state of an awaited promise, or of a call that may throw. *)
Inductive outcome (A : Type) :=
| Returned (a : A)
| Thrown (e : Exn).
Arguments Returned {A} a.
Arguments Thrown {A} e.

Definition bind {A B} (o : outcome A) (k : A -> outcome B) : outcome B :=
  match o with
  | Returned a => k a
  | Thrown e => Thrown e
  end.

(** [try { body } catch { handler }] *)
Definition try_catch {A} (body : outcome A) (handler : Exn -> outcome A)
  : outcome A :=
  match body with
  | Returned a => Returned a
  | Thrown e => handler e
  end.

Definition throws {A} (o : outcome A) : Prop := exists e, o = Thrown e.

(** Parsed JSON.  Numbers are carried through untouched by all the code
    modelled here, so integers stand for them. *)
#[warnings="-register-all"]
Inductive Json :=
| JNull
| JBool (b : bool)
| JNumber (n : Z)
| JString (s : string)
| JArray (items : list Json)
| JObject (fields : list (string * Json)).

End Async.

Declare Scope outcome_scope.
Delimit Scope outcome_scope with outcome.
Notation "'let!' x ':=' c1 'in' c2" := (Async.bind c1 (fun x => c2))
  (at level 10, x name, c1 at level 100, c2 at level 200) : outcome_scope.

(** ** Reading parsed JSON *)
Module Access.
Import Async.

(** The value of [key] in a parsed object; of two entries with the same key
    the later one is the one [JSON.parse] keeps. *)
Fixpoint lookup_field (key : string) (fields : list (string * Json))
  : option Json :=
  match fields with
  | [] => None
  | (k, v) :: rest =>
      match lookup_field key rest with
      | Some later => Some later
      | None => if String.eqb k key then Some v else None
      end
  end.

(** [v.key] for the keys the sources read (none of them is a built-in
    property of strings, arrays or [Object.prototype]): reading from
    [undefined] ([None]) or from [null] throws, reading from another
    primitive or from an array gives [undefined]. *)
Definition member (key : string) (v : option Json) : outcome (option Json) :=
  match v with
  | None => Thrown (TypeError "Cannot read properties of undefined")
  | Some JNull => Thrown (TypeError "Cannot read properties of null")
  | Some (JObject fields) => Returned (lookup_field key fields)
  | Some _ => Returned None
  end.

End Access.

(** ** The host's module loader, as seen by a dynamic [import()] *)
Module Host.
Import Async.

(** [resources]: the modules bundled at build time, by resolved specifier,
    with their default export.  [registry]: the host's module map of
    already-evaluated modules.  [evaluated] and [requested] are the traces
    of module evaluations and of [import()] calls, newest first. *)
Record state := mkHost {
  resources : gmap string Json;
  registry : gmap string Json;
  evaluated : list string;
  requested : list string;
}.

Definition boot (bundled : gmap string Json) : state :=
  {| resources := bundled; registry := ∅; evaluated := []; requested := [] |}.

(** A computation that awaits the host: it may reject and it may change
    the host's state. *)
Definition M (A : Type) : Type := state -> outcome A * state.

Definition ret {A} (a : A) : M A := fun h => (Returned a, h).
Definition throw {A} (e : Exn) : M A := fun h => (Thrown e, h).
Definition mbind {A B} (c : M A) (k : A -> M B) : M B :=
  fun h =>
    match c h with
    | (Returned a, h') => k a h'
    | (Thrown e, h') => (Thrown e, h')
    end.

(** [import(specifier)] on a host with a module map (ECMAScript hosts): a
    module already in the map is returned as it is; otherwise it is
    evaluated once and recorded. *)
Definition es_import (specifier : string) : M Json :=
  fun h =>
    let asked := specifier :: requested h in
    match registry h !! specifier with
    | Some m =>
        (Returned m,
         {| resources := resources h; registry := registry h;
            evaluated := evaluated h; requested := asked |})
    | None =>
        match resources h !! specifier with
        | Some m =>
            (Returned m,
             {| resources := resources h;
                registry := <[specifier := m]> (registry h);
                evaluated := specifier :: evaluated h;
                requested := asked |})
        | None =>
            (Thrown (ModuleNotFound specifier),
             {| resources := resources h; registry := registry h;
                evaluated := evaluated h; requested := asked |})
        end
    end.

(** A host that keeps no module map: every [import()] evaluates anew. *)
Definition uncached_import (specifier : string) : M Json :=
  fun h =>
    let asked := specifier :: requested h in
    match resources h !! specifier with
    | Some m =>
        (Returned m,
         {| resources := resources h; registry := registry h;
            evaluated := specifier :: evaluated h; requested := asked |})
    | None =>
        (Thrown (ModuleNotFound specifier),
         {| resources := resources h; registry := registry h;
            evaluated := evaluated h; requested := asked |})
    end.

(** How many times a module was evaluated, or asked for. *)
Definition times (specifier : string) (trace : list string) : nat :=
  length (List.filter (String.eqb specifier) trace).

(** The module map and the evaluation trace agree, and no module was
    evaluated twice. *)
Definition coherent (h : state) : Prop :=
  NoDup (evaluated h) /\
  forall specifier, specifier ∈ evaluated h <-> is_Some (registry h !! specifier).

(** The module map only holds bundled modules. *)
Definition faithful (h : state) : Prop :=
  forall specifier m,
    registry h !! specifier = Some m -> resources h !! specifier = Some m.

End Host.

Declare Scope host_scope.
Delimit Scope host_scope with host.
Notation "'await!' x ':=' c1 'in' c2" := (Host.mbind c1 (fun x => c2))
  (at level 10, x name, c1 at level 100, c2 at level 200) : host_scope.

(** ** i18n/getDictionary.ts and content/projects/getProjects.ts *)
Module Loader.
Import Async Host.
Local Open Scope host_scope.

Definition fr_dictionary : string := "i18n/dictionaries/fr.json".
Definition en_dictionary : string := "i18n/dictionaries/en.json".
Definition fr_projects : string := "content/projects/fr.json".
Definition en_projects : string := "content/projects/en.json".

Section WithHost.
(** The host's dynamic import. *)
Variable import : string -> M Json.

(** [(await import(...)).default] per locale: the module-level table. *)
Definition dictionaries : gmap string (M Json) :=
  {[ "fr" := import fr_dictionary; "en" := import en_dictionary ]}.

(** [dictionaries[locale]()].  The signature types [locale] as a key of the
    table; for a string with no entry the lookup is [undefined] and the
    call a [TypeError] (names inherited from [Object.prototype] are not
    modelled; no caller passes one). *)
Definition getDictionary (locale : string) : M Json :=
  match dictionaries !! locale with
  | Some load => load
  | None => throw (TypeError "dictionaries[locale] is not a function")
  end.

Definition projectsByLocale : gmap string (M Json) :=
  {[ "fr" := import fr_projects; "en" := import en_projects ]}.

Definition getProjects (locale : string) : M Json :=
  match projectsByLocale !! locale with
  | Some load => load
  | None => throw (TypeError "projectsByLocale[locale] is not a function")
  end.

(** The bundle that the table's entry for [locale] imports, if the table
    has one. *)
Definition dictionary_bundle (locale : string) : option string :=
  if String.eqb locale "fr" then Some fr_dictionary
  else if String.eqb locale "en" then Some en_dictionary
  else None.

(** A process lifetime as far as the loader is concerned: the successive
    calls of the accessor, whatever they settle to. *)
Fixpoint lifetime (calls : list string) (h : state) : state :=
  match calls with
  | [] => h
  | locale :: later => lifetime later (snd (getDictionary locale h))
  end.

End WithHost.

End Loader.

(** ** app/[locale]: the layout and the page components *)
Module Pages.
Import Async Host Loader Locales Access.
Local Open Scope host_scope.
Local Open Scope outcome_scope.

(** What a server component hands to the renderer.  [Element]: the
    component mounted, with its locale and dictionary, around its children.
    [Node]: an element built inside a component, with the properties that
    carry data.  [Value]: a value placed in the markup, [None] for
    [undefined].  The rest of the markup is constant. *)
#[warnings="-register-all"]
Inductive Markup :=
| Element (component : string) (locale : string) (dict : Json)
          (children : list Markup)
| Content (data : Json)
| Node (tag : string) (properties : list (string * option Json))
       (children : list Markup)
| Value (v : option Json).

Definition locale_of (m : Markup) : option string :=
  match m with
  | Element _ locale _ _ => Some locale
  | Content _ | Node _ _ _ | Value _ => None
  end.

(** [v.k1.k2...]: a chain of property reads, which throws as soon as a
    property is read from [undefined] or [null]. *)
Fixpoint read (keys : list string) (v : option Json)
  : outcome (option Json) :=
  match keys with
  | [] => Returned v
  | key :: more => let! x := member key v in read more x
  end.

(** The callback applied to the items in order; the first throw ends it. *)
Fixpoint map_outcome {A B} (f : A -> outcome B) (items : list A)
  : outcome (list B) :=
  match items with
  | [] => Returned []
  | x :: rest =>
      let! y := f x in
      let! ys := map_outcome f rest in
      Returned (y :: ys)
  end.

(** [v.map(f)] on a value read from JSON: only an array has a [map]. *)
Definition array_map (f : Json -> outcome Markup) (v : option Json)
  : outcome (list Markup) :=
  match v with
  | Some (JArray items) => map_outcome f items
  | Some JNull => Thrown (TypeError "Cannot read properties of null")
  | None => Thrown (TypeError "Cannot read properties of undefined")
  | Some _ => Thrown (TypeError "map is not a function")
  end.

(** The markup of [HomePage]: the reads of [dict.home] in source order. *)
Definition home_view (locale : string) (dict : Json) : outcome Markup :=
  let! role := read ["home"; "role"] (Some dict) in
  let! goal := read ["home"; "goal"] (Some dict) in
  let! stackBackend := read ["home"; "stackBackend"] (Some dict) in
  let! stackAi := read ["home"; "stackAi"] (Some dict) in
  let! stackInfra := read ["home"; "stackInfra"] (Some dict) in
  let! stackData := read ["home"; "stackData"] (Some dict) in
  let! chatCta := read ["home"; "chatCta"] (Some dict) in
  Returned
    (Element "HomePage" locale dict
       [Value role; Value goal; Value stackBackend; Value stackAi;
        Value stackInfra; Value stackData;
        Node "Link" [("href", Some (JString ("/" +:+ locale +:+ "/chat")))]
          [Value chatCta]]).

(** The callback of [projects.map]: one [article] per project. *)
Definition project_article (dict project : Json) : outcome Markup :=
  let! name := member "name" (Some project) in
  let! l_context := read ["projects"; "labels"; "context"] (Some dict) in
  let! context := member "context" (Some project) in
  let! l_architecture :=
    read ["projects"; "labels"; "architecture"] (Some dict) in
  let! architecture := member "architecture" (Some project) in
  let! l_choices := read ["projects"; "labels"; "choices"] (Some dict) in
  let! choices := member "choices" (Some project) in
  let! l_constraints :=
    read ["projects"; "labels"; "constraints"] (Some dict) in
  let! constraints := member "constraints" (Some project) in
  let! l_results := read ["projects"; "labels"; "results"] (Some dict) in
  let! results := member "results" (Some project) in
  let! key := member "name" (Some project) in
  Returned
    (Node "article" [("key", key)]
       [Value name; Value l_context; Value context; Value l_architecture;
        Value architecture; Value l_choices; Value choices;
        Value l_constraints; Value constraints; Value l_results;
        Value results]).

(** The markup of [ProjectsPage]. *)
Definition projects_view (locale : string) (dict projects : Json)
  : outcome Markup :=
  let! title := read ["projects"; "title"] (Some dict) in
  let! intro := read ["projects"; "intro"] (Some dict) in
  let! articles := array_map (project_article dict) (Some projects) in
  Returned
    (Element "ProjectsPage" locale dict
       (Value title :: Value intro :: articles)).

(** The callback of [dict.approach.steps.map]: one [li] per step. *)
Definition step_item (step : Json) : outcome Markup :=
  let! title := member "title" (Some step) in
  let! detail := member "detail" (Some step) in
  let! key := member "title" (Some step) in
  Returned (Node "li" [("key", key)] [Value title; Value detail]).

(** The markup of [ApproachArchitecturePage]. *)
Definition approach_view (locale : string) (dict : Json) : outcome Markup :=
  let! title := read ["approach"; "title"] (Some dict) in
  let! intro := read ["approach"; "intro"] (Some dict) in
  let! steps := read ["approach"; "steps"] (Some dict) in
  let! items := array_map step_item steps in
  Returned
    (Element "ApproachArchitecturePage" locale dict
       (Value title :: Value intro :: items)).

(** A value whose properties can be read: neither [undefined] nor
    [null]. *)
Definition readable (v : outcome (option Json)) : Prop :=
  exists j, v = Returned (Some j) /\ j <> JNull.

(** An array none of whose items is [null]. *)
Definition listable (v : outcome (option Json)) : Prop :=
  exists items, v = Returned (Some (JArray items))
                /\ Forall (fun j => j <> JNull) items.

(** A build whose bundles have the sections that the pages read from:
    [home], [projects] with its [labels], [approach] with its list of
    [steps], and a list of projects. *)
Record complete_build (dict projects : Json) : Prop := mkComplete {
  has_home : readable (read ["home"] (Some dict));
  has_projects : readable (read ["projects"] (Some dict));
  has_labels : readable (read ["projects"; "labels"] (Some dict));
  has_approach : readable (read ["approach"] (Some dict));
  has_steps : listable (read ["approach"; "steps"] (Some dict));
  has_list : listable (Returned (Some projects));
}.

(** A step that does not await the host. *)
Definition evaluate {A} (o : outcome A) : M A := fun h => (o, h).

Section WithHost.
Variable import : string -> M Json.

(** [notFound()] throws the framework's not-found signal. *)
Definition notFound {A} : M A := throw NEXT_NOT_FOUND.

Definition LocaleLayout (localeParam : string) (children : list Markup)
  : M Markup :=
  if negb (isLocale localeParam) then notFound
  else
    let locale := localeParam in
    await! dict := getDictionary import locale in
    ret (Element "LocaleLayout" locale dict
           (Element "Header" locale dict [] :: children)).

Definition HomePage (localeParam : string) : M Markup :=
  let locale := if isLocale localeParam then localeParam else "fr" in
  await! dict := getDictionary import locale in
  evaluate (home_view locale dict).

Definition ProjectsPage (localeParam : string) : M Markup :=
  let locale := if isLocale localeParam then localeParam else "fr" in
  await! dict := getDictionary import locale in
  await! projects := getProjects import locale in
  evaluate (projects_view locale dict projects).

Definition ApproachArchitecturePage (localeParam : string) : M Markup :=
  let locale := if isLocale localeParam then localeParam else "fr" in
  await! dict := getDictionary import locale in
  evaluate (approach_view locale dict).

(** [ChatPage] and [ContactPage] read nothing from the dictionary
    themselves: they hand it to [ChatScene] and [ContactScene]. *)
Definition ChatPage (localeParam : string) : M Markup :=
  let locale := if isLocale localeParam then localeParam else "fr" in
  await! dict := getDictionary import locale in
  ret (Element "ChatScene" locale dict []).

Definition ContactPage (localeParam : string) : M Markup :=
  let locale := if isLocale localeParam then localeParam else "fr" in
  await! dict := getDictionary import locale in
  ret (Element "ContactScene" locale dict []).

(** The page components under [app/[locale]]. *)
Definition pages : list (string -> M Markup) :=
  [HomePage; ProjectsPage; ApproachArchitecturePage; ChatPage;
   ContactPage].

End WithHost.

(** A build with every section, for exercising the pages. *)
Definition sample_dictionary : Json :=
  JObject
    [("home", JObject [("role", JString "Architecte IA")]);
     ("projects",
      JObject [("title", JString "Projets");
               ("labels", JObject [("context", JString "Contexte")])]);
     ("approach",
      JObject [("title", JString "Approche");
               ("steps",
                JArray [JObject [("title", JString "Cadrer");
                                 ("detail", JString "Comprendre")]])])].

Definition sample_projects : Json :=
  JArray [JObject [("name", JString "Portfolio");
                   ("context", JString "Site personnel")]].

End Pages.

(** ** app/api/health/route.ts and app/api/chat/route.ts *)
Module Api.
Import Async.
Local Open Scope outcome_scope.
Local Open Scope Z_scope.

(** The second argument of [fetch]. *)
Record RequestInit := mkInit {
  method : string;
  headers : list (string * string);
  body : option string;
  cache : option string;
}.

(** A settled [fetch]: the status line and what [response.json()] gives. *)
Record FetchResponse := mkFetched {
  fetched_status : Z;
  fetched_json : outcome Json;
}.

(** The incoming [Request], as far as the handler reads it:
    [request.json()]. *)
Record Request := mkRequest {
  request_json : outcome Json;
}.

(** What the handler answers. *)
Record Response := mkResponse {
  response_body : Json;
  response_status : Z;
}.

(** Statuses that the platform refuses to pair with a body. *)
Definition null_body_status (status : Z) : bool :=
  (status =? 204) || (status =? 205) || (status =? 304).

(** [NextResponse.json(data, { status })].  The platform's [Response]
    constructor throws on a status outside 200..599 and on a body given
    with a null-body status. *)
Definition NextResponse_json (data : Json) (status : Z) : outcome Response :=
  if (status <? 200) || (599 <? status) then
    Thrown (RangeError "init[status] must be in the range of 200 to 599")
  else if null_body_status status then
    Thrown (TypeError "Response with null body status cannot have body")
  else Returned {| response_body := data; response_status := status |}.

(** A status the platform accepts together with a body. *)
Definition accepted (status : Z) : Prop :=
  200 <= status <= 599 /\ null_body_status status = false.

Definition health_envelope : Json :=
  JObject [("status", JString "error");
           ("reason", JString "backend_unreachable")].

Definition chat_envelope : Json :=
  JObject [("message", JString "Backend unreachable")].

Section WithPlatform.
(** [process.env.NEXT_PUBLIC_API_BASE_URL], possibly unset. *)
Variable NEXT_PUBLIC_API_BASE_URL : option string.
(** The platform's [fetch] and [JSON.stringify]. *)
Variable fetch : string -> RequestInit -> outcome FetchResponse.
Variable JSON_stringify : Json -> string.

(** lib/apiBaseUrl.ts: [env || default]; an empty value is falsy too. *)
Definition getApiBaseUrl : string :=
  match NEXT_PUBLIC_API_BASE_URL with
  | Some url => if JS.truthy url then url else "http://127.0.0.1:8000"
  | None => "http://127.0.0.1:8000"
  end.

Definition health_init : RequestInit :=
  {| method := "GET"; headers := []; body := None;
     cache := Some "no-store" |}.

(** The [try] block of the health route. *)
Definition health_forward : outcome Response :=
  let baseUrl := getApiBaseUrl in
  let! response := fetch (baseUrl +:+ "/health") health_init in
  let! data := fetched_json response in
  NextResponse_json data (fetched_status response).

Definition GET : outcome Response :=
  try_catch health_forward
    (fun _ => NextResponse_json health_envelope 502).

Definition chat_init (payload : Json) : RequestInit :=
  {| method := "POST";
     headers := [("content-type", "application/json")];
     body := Some (JSON_stringify payload);
     cache := None |}.

(** The [try] block of the chat route. *)
Definition chat_forward (request : Request) : outcome Response :=
  let baseUrl := getApiBaseUrl in
  let! payload := request_json request in
  let! response := fetch (baseUrl +:+ "/chat") (chat_init payload) in
  let! data := fetched_json response in
  NextResponse_json data (fetched_status response).

Definition POST (request : Request) : outcome Response :=
  try_catch (chat_forward request)
    (fun _ => NextResponse_json chat_envelope 502).

(** Some step of the chat route's [try] block throws: reading the
    request body, the forwarded [fetch], reading the backend's body, or
    building the response. *)
Inductive step_throws (request : Request) : Prop :=
| request_body_not_json e :
    request_json request = Thrown e -> step_throws request
| fetch_rejected payload e :
    request_json request = Returned payload ->
    fetch (getApiBaseUrl +:+ "/chat") (chat_init payload) = Thrown e ->
    step_throws request
| backend_body_not_json payload response e :
    request_json request = Returned payload ->
    fetch (getApiBaseUrl +:+ "/chat") (chat_init payload)
      = Returned response ->
    fetched_json response = Thrown e ->
    step_throws request
| response_refused payload response data e :
    request_json request = Returned payload ->
    fetch (getApiBaseUrl +:+ "/chat") (chat_init payload)
      = Returned response ->
    fetched_json response = Returned data ->
    NextResponse_json data (fetched_status response) = Thrown e ->
    step_throws request.

(** The backend itself answered with status 502 and the body
    [{message: "Backend unreachable"}]. *)
Definition backend_sent_envelope (request : Request) : Prop :=
  exists payload response,
    request_json request = Returned payload /\
    fetch (getApiBaseUrl +:+ "/chat") (chat_init payload)
      = Returned response /\
    fetched_json response = Returned chat_envelope /\
    fetched_status response = 502.

End WithPlatform.

(** *** Platforms and requests used to exercise the routes *)

(** A backend that cannot be reached. *)
Definition unreachable_fetch (_ : string) (_ : RequestInit)
  : outcome FetchResponse :=
  Thrown (NetworkError "fetch failed").

(** A backend that answers 502 with the chat route's own envelope. *)
Definition echoing_fetch (_ : string) (_ : RequestInit)
  : outcome FetchResponse :=
  Returned {| fetched_status := 502;
              fetched_json := Returned chat_envelope |}.

(** A backend that answers 500 with a JSON body of its own. *)
Definition failing_backend (_ : string) (_ : RequestInit)
  : outcome FetchResponse :=
  Returned {| fetched_status := 500;
              fetched_json :=
                Returned (JObject [("detail", JString "boom")]) |}.

(** A backend in good health. *)
Definition healthy_backend (_ : string) (_ : RequestInit)
  : outcome FetchResponse :=
  Returned {| fetched_status := 200;
              fetched_json :=
                Returned (JObject [("status", JString "ok")]) |}.

(** A stand-in for [JSON.stringify]; the routes only pass its result on. *)
Definition blank_stringify (_ : Json) : string := "{}".

Definition ping : Request :=
  {| request_json := Returned (JObject [("message", JString "ping")]) |}.

End Api.

(** ** app/[locale]/chat/ChatScene.tsx: the state and [handleSend] *)
Module Chat.
Local Open Scope list_scope.
Local Open Scope Z_scope.

(** What the user types is arbitrary text: a JavaScript string is a
    sequence of UTF-16 code units. *)
Definition jstring : Type := list N.

(** An ASCII literal of the source as a JavaScript string. *)
Definition lit (s : string) : jstring :=
  List.map N_of_ascii (list_ascii_of_string s).

(** WhiteSpace and LineTerminator code units: what [trim] strips and what
    [\s] matches. *)
Definition isWhiteSpace (c : N) : bool :=
  ((9 <=? c) && (c <=? 13) || (c =? 32) || (c =? 160) || (c =? 5760)
   || (8192 <=? c) && (c <=? 8202) || (c =? 8232) || (c =? 8233)
   || (c =? 8239) || (c =? 8287) || (c =? 12288) || (c =? 65279))%N.

Fixpoint trimStart (s : jstring) : jstring :=
  match s with
  | [] => []
  | c :: s' => if isWhiteSpace c then trimStart s' else s
  end.

Definition trimEnd (s : jstring) : jstring := rev (trimStart (rev s)).

Definition trim (s : jstring) : jstring := trimEnd (trimStart s).

Definition truthy (s : jstring) : bool :=
  match s with [] => false | _ :: _ => true end.

(** The number of maximal whitespace runs of [s]; [in_run] tells whether
    the previous code unit was whitespace. *)
Fixpoint ws_runs (in_run : bool) (s : jstring) : nat :=
  match s with
  | [] => 0%nat
  | c :: s' =>
      if isWhiteSpace c
      then ((if in_run then 0 else 1) + ws_runs true s')%nat
      else ws_runs false s'
  end.

(** [s.split(/\s+/).length]: every maximal run separates two pieces. *)
Definition split_ws_length (s : jstring) : Z :=
  Z.of_nat (S (ws_runs false s)).

Inductive Role := user | system | ai.

Record Message := mkMessage {
  id : jstring;
  role : Role;
  content : jstring;
  ts : jstring;
}.

(** [memory] is a one-decimal number; it is kept in tenths. *)
Record Metrics := mkMetrics {
  latency : Z;
  tokenGen : Z;
  memory_tenths : Z;
  tokensUsed : Z;
}.

(** The component's [useState] cells and the [pendingTextRef] ref. *)
Record State := mkState {
  messages : list Message;
  input : jstring;
  isProcessing : bool;
  typingText : jstring;
  typingId : option jstring;
  isDisconnecting : bool;
  booted : bool;
  sessionId : jstring;
  metrics : Metrics;
  uptime : Z;
  pendingTextRef : jstring;
}.

Definition initial : State :=
  {| messages := []; input := []; isProcessing := false; typingText := [];
     typingId := None; isDisconnecting := false; booted := false;
     sessionId := lit "0000";
     metrics := {| latency := 42; tokenGen := 38; memory_tenths := 42;
                   tokensUsed := 0 |};
     uptime := 0; pendingTextRef := [] |}.

(** The one network call of the component: [fetch("/api/chat", ...)] with
    the fields of its JSON body. *)
Record FetchCall := mkCall {
  url : string;
  call_method : string;
  call_headers : list (string * string);
  body_message : jstring;
  body_session_id : jstring;
  body_locale : string;
}.

Definition add_tokens (p : Metrics) (text : jstring) : Metrics :=
  {| latency := latency p; tokenGen := tokenGen p;
     memory_tenths := memory_tenths p;
     tokensUsed := tokensUsed p + split_ws_length text * 3 |}.

(** [handleSend] up to its [await]: the state after the synchronous part
    and the network calls issued.  [now] is [Date.now()] and [stamp] is
    [ts()] at the time of the call. *)
Definition handleSend (locale : string) (now : Z) (stamp : jstring)
    (st : State) : State * list FetchCall :=
  let trimmed := trim (input st) in
  if negb (truthy trimmed) || isProcessing st || negb (booted st)
  then (st, [])
  else
    let userMsg :=
      {| id := lit "u-" ++ lit (pretty now); role := user;
         content := trimmed; ts := stamp |} in
    ({| messages := messages st ++ [userMsg];
        input := [];
        isProcessing := true;
        typingText := typingText st;
        typingId := typingId st;
        isDisconnecting := isDisconnecting st;
        booted := booted st;
        sessionId := sessionId st;
        metrics := add_tokens (metrics st) trimmed;
        uptime := uptime st;
        pendingTextRef := pendingTextRef st |},
     [ {| url := "/api/chat"; call_method := "POST";
          call_headers := [("Content-Type", "application/json")];
          body_message := trimmed;
          body_session_id := sessionId st;
          body_locale := locale |} ]).

(** A parsed JSON body as the panel receives it: [data] is untyped in the
    source, so any JSON value can stand there.  Of a number only its being
    zero is looked at; keys are compared with ASCII literals only. *)
#[warnings="-register-all"]
Inductive Value :=
| VNull
| VBool (b : bool)
| VNumber (n : Z)
| VString (s : jstring)
| VArray (items : list Value)
| VObject (fields : list (string * Value)).

(** [Boolean(v)] *)
Definition value_truthy (v : Value) : bool :=
  match v with
  | VNull => false
  | VBool b => b
  | VNumber n => negb (n =? 0)
  | VString s => truthy s
  | VArray _ | VObject _ => true
  end.

(** The value of [key] in a parsed object (of two entries with the same key
    the later one is kept by the parser). *)
Fixpoint lookup_value (key : string) (fields : list (string * Value))
  : option Value :=
  match fields with
  | [] => None
  | (k, v) :: rest =>
      match lookup_value key rest with
      | Some later => Some later
      | None => if String.eqb k key then Some v else None
      end
  end.

(** [data.key] for the keys the panel reads: [None] when the read throws
    ([data] is [null]), [Some None] when it gives [undefined]. *)
Definition property (key : string) (data : Value) : option (option Value) :=
  match data with
  | VNull => None
  | VObject fields => Some (lookup_value key fields)
  | _ => Some None
  end.

(** [v || fallback] *)
Definition pick (v : option Value) (fallback : Value) : Value :=
  match v with
  | Some x => if value_truthy x then x else fallback
  | None => fallback
  end.

(** How the awaited [fetch] settles: rejected with an [Error] carrying a
    message ([None]: with something that is not an [Error]), or answered
    with a status and a body ([None]: a body that is not JSON). *)
Inductive Settled :=
| Rejected (error_message : option jstring)
| Answered (status : Z) (data : option Value).

Definition ok (status : Z) : bool := (200 <=? status) && (status <=? 299).

(** What the [try] block comes to after the [await]: the value taken as the
    reply, or the message of the error thrown. *)
Inductive Awaited :=
| Reply (v : Value)
| Failure (msg : jstring).

Section WithEngine.
(** The message of the engine's [TypeError] for reading the given property
    of [null]. *)
Variable null_read_message : string -> jstring.

(** The [try] block after the [await].  A body that is not JSON is replaced
    by [{}]; reading a property of a [null] body throws inside the [try]. *)
Definition awaited_reply (settled : Settled) : Awaited :=
  match settled with
  | Rejected (Some msg) => Failure msg
  | Rejected None => Failure (lit "Unknown error")
  | Answered status parsed =>
      let data := default (VObject []) parsed in
      if negb (ok status) then
        match property "detail" data with
        | None => Failure (null_read_message "detail")
        | Some (Some (VString (c :: s))) => Failure (c :: s)
        | Some _ => Failure (lit "HTTP_" ++ lit (pretty status))
        end
      else
        match property "response" data with
        | None => Failure (null_read_message "response")
        | Some response =>
            Reply
              (pick response
                 (pick (default None (property "reply" data))
                    (pick (default None (property "message" data))
                       (VString (lit "No response received.")))))
        end
  end.

(** [handleSend] after its [await], on the state current at that time.
    [None]: the reply taken is not a string, so that [reply.split] throws
    in the [setMetrics] updater when the panel renders next, and the panel
    is lost to the error boundary. *)
Definition handleSend_settled (now : Z) (stamp : jstring)
    (settled : Settled) (st : State) : option State :=
  let aiMsg (text : jstring) :=
    {| id := lit "ai-" ++ lit (pretty now); role := ai; content := text;
       ts := stamp |} in
  let next (text : jstring) (counted : bool) :=
    {| messages := messages st ++ [aiMsg text];
       input := input st;
       isProcessing := isProcessing st;
       typingText := typingText st;
       typingId := Some (id (aiMsg text));
       isDisconnecting := isDisconnecting st;
       booted := booted st;
       sessionId := sessionId st;
       metrics := if counted then add_tokens (metrics st) text
                  else metrics st;
       uptime := uptime st;
       pendingTextRef := text |} in
  match awaited_reply settled with
  | Reply (VString reply) => Some (next reply true)
  | Reply _ => None
  | Failure msg => Some (next (lit "[ERR] " ++ msg) false)
  end.

End WithEngine.

(** The message of V8 (Chrome, Edge, Node.js). *)
Definition v8_null_read_message (key : string) : jstring :=
  lit "Cannot read properties of null (reading '" ++ lit key ++ lit "')".

(** *** The typewriter effect *)

(** The closure of a running interval: the text to reveal and [idx]. *)
Record Typewriter := mkTypewriter {
  fullText : jstring;
  idx : nat;
}.

Definition set_typingText (text : jstring) (st : State) : State :=
  {| messages := messages st; input := input st;
     isProcessing := isProcessing st; typingText := text;
     typingId := typingId st; isDisconnecting := isDisconnecting st;
     booted := booted st; sessionId := sessionId st; metrics := metrics st;
     uptime := uptime st; pendingTextRef := pendingTextRef st |}.

(** [setTypingId(null); setIsProcessing(false)] *)
Definition end_typing (st : State) : State :=
  {| messages := messages st; input := input st;
     isProcessing := false; typingText := typingText st;
     typingId := None; isDisconnecting := isDisconnecting st;
     booted := booted st; sessionId := sessionId st; metrics := metrics st;
     uptime := uptime st; pendingTextRef := pendingTextRef st |}.

(** The effect body, run when [typingId] changes: nothing without a typing
    id ([null] or the empty string) or with an empty pending text; otherwise the shown text is reset and
    an interval is started. *)
Definition typewriter_effect (st : State) : State * option Typewriter :=
  match typingId st with
  | None => (st, None)
  | Some typing =>
      if negb (truthy typing) then (st, None)
      else
        let text := pendingTextRef st in
        if negb (truthy text) then (st, None)
        else (set_typingText [] st, Some {| fullText := text; idx := 0 |})
  end.

(** One firing of the interval: [None] once it has cleared itself. *)
Definition typewriter_tick (tw : Typewriter) (st : State)
  : State * option Typewriter :=
  let i := S (idx tw) in
  let st1 := set_typingText (take i (fullText tw)) st in
  if (length (fullText tw) <=? i)%nat then (end_typing st1, None)
  else (st1, Some {| fullText := fullText tw; idx := i |}).

(** [n] firings, as long as the interval is alive. *)
Fixpoint typewriter_ticks (n : nat) (tw : option Typewriter) (st : State)
  : State * option Typewriter :=
  match n, tw with
  | S n', Some running =>
      let '(st', tw') := typewriter_tick running st in
      typewriter_ticks n' tw' st'
  | _, _ => (st, tw)
  end.

(** What a message row shows:
    [msg.id === typingId ? typingText : msg.content]. *)
Definition shown (st : State) (msg : Message) : jstring :=
  match typingId st with
  | Some typing =>
      if bool_decide (id msg = typing) then typingText st else content msg
  | None => content msg
  end.

(** *** The boot sequence *)

Definition boot_message (text hex stamp : jstring) (i : nat) : Message :=
  {| id := lit "boot-" ++ hex ++ lit "-" ++ lit (pretty i); role := system;
     content := text; ts := stamp |}.

(** The callback of the [i]-th boot timer over the boot lines [boots];
    [hex] is [hexId()] and [stamp] is [ts()] when it fires. *)
Definition boot_timer (boots : list jstring) (cancelled : bool) (i : nat)
    (text hex stamp : jstring) (st : State) : State :=
  if cancelled then st
  else
    {| messages := messages st ++ [boot_message text hex stamp i];
       input := input st; isProcessing := isProcessing st;
       typingText := typingText st; typingId := typingId st;
       isDisconnecting := isDisconnecting st;
       booted := if Z.of_nat i =? Z.of_nat (length boots) - 1 then true
                 else booted st;
       sessionId := sessionId st; metrics := metrics st;
       uptime := uptime st; pendingTextRef := pendingTextRef st |}.

(** The timers fire in the order of their delays, [400 + i * 550]: the
    state after the first [k] of them.  [hexes] and [stamps] give [hexId()]
    and [ts()] for each timer. *)
Fixpoint boot_fired_from (boots : list jstring) (i : nat)
    (lines : list jstring) (hexes stamps : nat -> jstring) (k : nat)
    (st : State) : State :=
  match k, lines with
  | S k', text :: later =>
      boot_fired_from boots (S i) later hexes stamps k'
        (boot_timer boots false i text (hexes i) (stamps i) st)
  | _, _ => st
  end.

Definition boot_fired (boots : list jstring) (hexes stamps : nat -> jstring)
    (k : nat) (st : State) : State :=
  boot_fired_from boots 0 boots hexes stamps k st.

End Chat.

(** ** generateStaticParams and generateMetadata of the layout and pages *)
Module Metadata.
Import Async Host Loader Locales Access.
Local Open Scope host_scope.

(** The route parameters: [{ locale }]. *)
Record Params := mkParams {
  locale : string;
}.

(** [SUPPORTED_LOCALES.map((locale) => ({ locale }))]: the parameters that
    are rendered at build time. *)
Definition generateStaticParams : list Params :=
  List.map (fun locale => {| locale := locale |}) SUPPORTED_LOCALES.

(** The [Metadata] objects built: [{}] has no field at all. *)
Record Metadata := mkMetadata {
  title : option Json;
  description : option Json;
  alternates_languages : list (string * string);
}.

Definition empty_metadata : Metadata :=
  {| title := None; description := None; alternates_languages := [] |}.

Definition lift {A} (o : outcome A) : M A := fun h => (o, h).

Section WithHost.
Variable import : string -> M Json.

(** The shape common to the six functions: [{}] for a parameter that is
    not a locale, else [dict.seo.<titleKey>] and [dict.seo.<descriptionKey>]
    of the parameter's dictionary. *)
Definition seo_metadata (titleKey descriptionKey : string)
    (languages : list (string * string)) (locale : string) : M Metadata :=
  if negb (isLocale locale) then ret empty_metadata
  else
    await! dict := getDictionary import locale in
    await! seo := lift (member "seo" (Some dict)) in
    await! t := lift (member titleKey seo) in
    await! seo' := lift (member "seo" (Some dict)) in
    await! d := lift (member descriptionKey seo') in
    ret {| title := t; description := d; alternates_languages := languages |}.

Definition layout_generateMetadata : string -> M Metadata :=
  seo_metadata "siteTitle" "siteDescription" [("fr", "/fr"); ("en", "/en")].

Definition home_generateMetadata : string -> M Metadata :=
  seo_metadata "homeTitle" "homeDescription" [].

Definition projects_generateMetadata : string -> M Metadata :=
  seo_metadata "projectsTitle" "projectsDescription" [].

Definition approach_generateMetadata : string -> M Metadata :=
  seo_metadata "approachTitle" "approachDescription" [].

Definition chat_generateMetadata : string -> M Metadata :=
  seo_metadata "chatTitle" "chatDescription" [].

Definition contact_generateMetadata : string -> M Metadata :=
  seo_metadata "contactTitle" "contactDescription" [].

Definition metadata_functions : list (string -> M Metadata) :=
  [layout_generateMetadata; home_generateMetadata;
   projects_generateMetadata; approach_generateMetadata;
   chat_generateMetadata; contact_generateMetadata].

End WithHost.

End Metadata.

(** ** components/BackendStatus.tsx *)
Module BackendStatus.
Import Async Access.
Local Open Scope outcome_scope.
Local Open Scope Z_scope.

Inductive Health := loading | ok | error.

(** The response of [fetch("/api/health")] as the component reads it. *)
Record Res := mkRes {
  res_status : Z;
  res_json : outcome Json;
}.

(** [res.ok] *)
Definition res_ok (res : Res) : bool :=
  (200 <=? res_status res) && (res_status res <=? 299).

(** [v === "ok"] *)
Definition is_ok_string (v : option Json) : bool :=
  match v with
  | Some (JString s) => String.eqb s "ok"
  | _ => false
  end.

(** The [run] function of the effect: [fetched] is how the awaited [fetch]
    settles, [cancelled] the flag when the awaits are over, [state] the
    current state. *)
Definition run (cancelled : bool) (fetched : outcome Res) (state : Health)
  : Health :=
  let attempt : outcome Health :=
    let! res := fetched in
    let! data := res_json res in
    if cancelled then Returned state
    else if res_ok res then
      let! status := member "status" (Some data) in
      Returned (if is_ok_string status then ok else error)
    else Returned error in
  match attempt with
  | Returned next_state => next_state
  | Thrown _ => if cancelled then state else error
  end.

(** The text shown for a state. *)
Definition text (loading_label ok_label error_label : string)
    (state : Health) : string :=
  match state with
  | loading => loading_label
  | ok => ok_label
  | error => error_label
  end.

(** What the component receives when the health route answered [r]: the
    body written by [NextResponse.json] reads back as the same value. *)
Definition delivered (r : Api.Response) : outcome Res :=
  Returned {| res_status := Api.response_status r;
              res_json := Returned (Api.response_body r) |}.

End BackendStatus.

(** ** components/ChatTester.tsx *)
Module ChatTester.
Import Async Access.
Import Chat.
Local Open Scope list_scope.

Record Props := mkProps {
  okPrefix : jstring;
  errorPrefix : jstring;
}.

Record State := mkState {
  message : jstring;
  result : jstring;
  isLoading : bool;
}.

Definition initial : State :=
  {| message := []; result := []; isLoading := false |}.

(** The [message] field of the body posted: [message || "ping"]. *)
Definition posted_message (st : State) : jstring :=
  if truthy (message st) then message st else lit "ping".

(** [onSubmit] up to its [await]: the state and the message posted to
    [/api/chat]. *)
Definition onSubmit (st : State) : State * jstring :=
  ({| message := message st; result := []; isLoading := true |},
   posted_message st).

(** How the awaits settle: [Failed] when [fetch] rejects, the body is not
    JSON, or the body is [null]; else the body's [message], [None] when it
    is absent or [null]. *)
Inductive Settled :=
| Failed
| Parsed (data_message : option jstring).

(** [onSubmit] after its awaits, [finally] included. *)
Definition onSubmit_settled (props : Props) (settled : Settled) (st : State)
  : State :=
  {| message := message st;
     result :=
       match settled with
       | Parsed data_message =>
           okPrefix props ++ lit " "
             ++ default (lit "(no message)") data_message
       | Failed => errorPrefix props ++ lit " request_failed"
       end;
     isLoading := false |}.

(** What the component reads from a body answered by the chat route, where
    the body is [null], or an object whose [message] is a string, [null] or
    absent, or a primitive or an array (which have no [message]); [None]
    for an object whose [message] is of another type. *)
Definition delivered (body : Json) : option Settled :=
  match member "message" (Some body) with
  | Thrown _ => Some Failed
  | Returned None | Returned (Some JNull) => Some (Parsed None)
  | Returned (Some (JString s)) => Some (Parsed (Some (lit s)))
  | Returned (Some _) => None
  end.

End ChatTester.

(** * Properties *)

(** ** String helpers *)
Section StringFacts.

Lemma split_segment (s rest : string) :
  JS.no_slash s = true ->
  JS.split "/" (s +:+ String "/" rest) = s :: JS.split "/" rest.
Proof.
  induction s as [|c s IH]; intros Hs; simpl in *.
  - reflexivity.
  - apply andb_true_iff in Hs as [Hc Hs].
    apply negb_true_iff in Hc. rewrite Hc, (IH Hs). reflexivity.
Qed.

Lemma split_no_slash (s : string) :
  JS.no_slash s = true -> JS.split "/" s = [s].
Proof.
  induction s as [|c s IH]; intros Hs; simpl in *; [reflexivity|].
  apply andb_true_iff in Hs as [Hc Hs]. apply negb_true_iff in Hc.
  rewrite Hc, (IH Hs). reflexivity.
Qed.

Lemma split_leading_slash (s : string) :
  JS.split "/" (String "/" s) = EmptyString :: JS.split "/" s.
Proof. reflexivity. Qed.

Lemma truthy_nonempty (s : string) : s <> EmptyString -> JS.truthy s = true.
Proof. destruct s; [congruence | reflexivity]. Qed.

End StringFacts.

(** ** The request router *)
Section RouterFacts.
Import Locales Router.

Lemma firstSegment_of_path (s rest : string) :
  is_segment s -> firstSegment ("/" +:+ s +:+ "/" +:+ rest) = Some s.
Proof.
  intros [Hne Hns]. unfold firstSegment.
  change ("/" +:+ s +:+ "/" +:+ rest) with (String "/" (s +:+ String "/" rest)).
  rewrite split_leading_slash, (split_segment _ _ Hns).
  unfold JS.filter_Boolean. simpl. rewrite (truthy_nonempty _ Hne).
  reflexivity.
Qed.

Lemma firstSegment_bare (s : string) :
  is_segment s -> firstSegment ("/" +:+ s) = Some s.
Proof.
  intros [Hne Hns]. unfold firstSegment.
  change ("/" +:+ s) with (String "/" s).
  rewrite split_leading_slash, (split_no_slash _ Hns).
  unfold JS.filter_Boolean. simpl. rewrite (truthy_nonempty _ Hne).
  reflexivity.
Qed.

Lemma bare_path_is_not_root (s : string) :
  is_segment s -> String.eqb ("/" +:+ s) "/" = false.
Proof.
  intros [Hne _]. destruct s as [|c s]; [congruence|]. reflexivity.
Qed.

Lemma path_is_not_root (s rest : string) :
  is_segment s -> String.eqb ("/" +:+ s +:+ "/" +:+ rest) "/" = false.
Proof.
  intros [Hne _]. destruct s as [|c s]; [congruence|]. reflexivity.
Qed.

(** The router builds a response for every request. *)
Lemma proxy_total (url : NextURL) :
  proxy url = next \/ exists target, proxy url = redirect target.
Proof. destruct (proxy url); eauto. Qed.

(** C1, as stated, fails: [api] is not a locale, yet [/api/chat] is passed
    through untouched instead of being redirected to [/fr/api/chat]. *)
Lemma api_segment_not_prefixed :
  isLocale "api" = false /\
  proxy (mkURL "https://site" "/api/chat" "" "") = next /\
  proxy (mkURL "https://site" "/api/chat" "" "")
    <> redirect (mkURL "https://site" "/fr/api/chat" "" "").
Proof. split; [reflexivity | split; [reflexivity | discriminate]]. Qed.

(** C1 (amended): for a path segment [s] that is not a supported locale,
    the request for [/s] or for [/s/rest] is passed through when the path
    starts with [/_next] or [/api] or ends in a file extension, and is
    redirected to the same path behind [/fr] (same origin, query and
    fragment) in every other case. *)
Theorem unrecognised_segment_prefixed (s rest : string) (url : NextURL) :
  is_segment s ->
  isLocale s = false ->
  pathname url = "/" +:+ s \/ pathname url = "/" +:+ s +:+ "/" +:+ rest ->
  proxy url =
    if passes_untouched (pathname url) then next
    else redirect (set_pathname url ("/fr" +:+ pathname url)).
Proof.
  intros Hseg Hloc Hp. unfold proxy. cbv zeta.
  destruct (passes_untouched _); [reflexivity|].
  unfold isLocale in Hloc. destruct Hp as [-> | ->].
  - rewrite (bare_path_is_not_root _ Hseg), (firstSegment_bare _ Hseg), Hloc.
    reflexivity.
  - rewrite (path_is_not_root _ _ Hseg), (firstSegment_of_path _ _ Hseg), Hloc.
    reflexivity.
Qed.

Lemma unrecognised_segment_prefixed_witness :
  proxy (mkURL "https://site" "/xx/page" "?a=1" "") =
    redirect (mkURL "https://site" "/fr/xx/page" "?a=1" "") /\
  proxy (mkURL "https://site" "/projets" "" "") =
    redirect (mkURL "https://site" "/fr/projets" "" "").
Proof.
  split.
  - apply (unrecognised_segment_prefixed "xx" "page"
             (mkURL "https://site" "/xx/page" "?a=1" "")).
    + split; [discriminate | reflexivity].
    + reflexivity.
    + right. reflexivity.
  - apply (unrecognised_segment_prefixed "projets" ""
             (mkURL "https://site" "/projets" "" "")).
    + split; [discriminate | reflexivity].
    + reflexivity.
    + left. reflexivity.
Defined.

(** C8: a request for the root path is redirected to [/fr], whatever its
    query string (which the redirect keeps). *)
Theorem root_redirects_to_fr (o query fragment : string) :
  proxy (mkURL o "/" query fragment) = redirect (mkURL o "/fr" query fragment).
Proof. reflexivity. Qed.

End RouterFacts.

(** ** The language switcher *)
Section SwitcherFacts.
Import LanguageSwitcher.

(** C7: [/fr/projets] with target [en] becomes [/en/projets], and [/fr]
    becomes [/en]. *)
Theorem swapLocale_rewrites_first_segment :
  swapLocale "/fr/projets" "en" = "/en/projets" /\
  swapLocale "/fr" "en" = "/en".
Proof. split; reflexivity. Qed.

Lemma swapLocale_root (nextLocale : string) :
  swapLocale "/" nextLocale = "/" +:+ nextLocale.
Proof. reflexivity. Qed.

End SwitcherFacts.

(** ** The host's module map *)
Section HostFacts.
Import Async Host.

Lemma times_absent (specifier : string) (trace : list string) :
  specifier ∉ trace -> times specifier trace = 0%nat.
Proof.
  unfold times. induction trace as [|x trace IH]; intros Hn; [reflexivity|].
  apply not_elem_of_cons in Hn as [Hx Hn]. simpl.
  destruct (String.eqb_spec specifier x); [congruence | auto].
Qed.

Lemma times_NoDup (specifier : string) (trace : list string) :
  NoDup trace -> (times specifier trace <= 1)%nat.
Proof.
  induction 1 as [|x trace Hx Hnd IH]; [unfold times; simpl; lia|].
  unfold times in *. simpl.
  destruct (String.eqb_spec specifier x) as [->|_]; [|exact IH].
  simpl. fold (times x trace). rewrite (times_absent _ _ Hx). lia.
Qed.

Lemma boot_coherent (bundled : gmap string Json) : coherent (boot bundled).
Proof.
  split; [constructor|]. intros specifier. simpl. split.
  - intros Hin. inversion Hin.
  - rewrite lookup_empty. intros [m Hm]. discriminate.
Qed.

(** An import on a host with a module map evaluates a module only when
    the map does not hold it yet. *)
Lemma es_import_coherent (specifier : string) (h : state) :
  coherent h -> coherent (snd (es_import specifier h)).
Proof.
  intros [Hnd Hreg]. unfold es_import.
  destruct (registry h !! specifier) as [m|] eqn:Hm; [split; assumption|].
  destruct (resources h !! specifier) as [m|] eqn:Hr; [|split; assumption].
  split; simpl.
  - apply NoDup_cons. split; [|assumption].
    intros Hin. apply Hreg in Hin as [m' Hm']. congruence.
  - intros q. rewrite elem_of_cons, Hreg.
    destruct (decide (q = specifier)) as [->|Hne].
    + rewrite lookup_insert_eq. split; eauto.
    + rewrite lookup_insert_ne by congruence. split; [|auto].
      intros [Heq|Hs]; [contradiction | assumption].
Qed.

Lemma es_import_requested (specifier : string) (h : state) :
  requested (snd (es_import specifier h)) = specifier :: requested h.
Proof.
  unfold es_import.
  destruct (registry h !! specifier); [reflexivity|].
  destruct (resources h !! specifier); reflexivity.
Qed.

End HostFacts.

(** ** The dictionary loader *)
Section LoaderFacts.
Import Async Host Loader Locales.

(** The accessor is the table lookup and nothing more: a call for a locale
    of the table is that locale's dynamic import itself. *)
Lemma getDictionary_is_import (import : string -> M Json) (locale : string) :
  getDictionary import locale =
    match dictionary_bundle locale with
    | Some bundle => import bundle
    | None => throw (TypeError "dictionaries[locale] is not a function")
    end.
Proof.
  unfold getDictionary, dictionary_bundle, dictionaries.
  destruct (String.eqb_spec locale "fr") as [->|Hfr].
  - rewrite lookup_insert_eq. reflexivity.
  - rewrite lookup_insert_ne by congruence.
    destruct (String.eqb_spec locale "en") as [->|Hen].
    + rewrite lookup_singleton_eq. reflexivity.
    + rewrite lookup_singleton_ne by congruence. reflexivity.
Qed.

Lemma isLocale_bundle (locale : string) :
  isLocale locale = true <-> is_Some (dictionary_bundle locale).
Proof.
  unfold isLocale, dictionary_bundle, SUPPORTED_LOCALES. simpl.
  destruct (String.eqb locale "fr"), (String.eqb locale "en"); simpl;
    split; intros H;
    first [reflexivity | discriminate | (eexists; reflexivity)
          | destruct H; discriminate].
Qed.

Lemma getDictionary_coherent (locale : string) (h : state) :
  coherent h -> coherent (snd (getDictionary es_import locale h)).
Proof.
  intros Hc. rewrite getDictionary_is_import.
  destruct (dictionary_bundle locale); [|exact Hc].
  apply es_import_coherent, Hc.
Qed.

Lemma lifetime_coherent (calls : list string) (h : state) :
  coherent h -> coherent (lifetime es_import calls h).
Proof.
  revert h. induction calls as [|locale calls IH]; intros h Hc; [exact Hc|].
  simpl. apply IH, getDictionary_coherent, Hc.
Qed.

Lemma lifetime_requested (calls : list string) (h : state) :
  requested (lifetime es_import calls h) =
    (rev (omap dictionary_bundle calls) ++ requested h)%list.
Proof.
  revert h. induction calls as [|locale calls IH]; intros h; [reflexivity|].
  simpl. rewrite IH, getDictionary_is_import.
  destruct (dictionary_bundle locale) as [bundle|]; simpl.
  - rewrite es_import_requested, <- app_assoc. reflexivity.
  - reflexivity.
Qed.

(** C5, as stated, fails.  Two calls of the accessor for [fr] reach the
    host's [import()] twice: the second one is not served from a cache of
    the loader.  On a host without a module map the bundle is then
    evaluated twice. *)
Lemma second_call_reaches_host :
  let bundled : gmap string Json := {[ fr_dictionary := JObject [] ]} in
  requested (lifetime es_import ["fr"; "fr"] (boot bundled))
    = [fr_dictionary; fr_dictionary] /\
  times fr_dictionary
    (evaluated (lifetime uncached_import ["fr"; "fr"] (boot bundled))) = 2%nat.
Proof. vm_compute. split; reflexivity. Qed.

(** C5 (amended): the loader keeps no cache of its own.  Each call of the
    accessor for a locale of the table is that locale's dynamic import, so
    the host is asked once per call; it is the host's module map that
    makes every bundle be evaluated at most once in a process lifetime. *)
Theorem bundle_loaded_once_by_host_module_map
    (bundled : gmap string Json) (calls : list string) (specifier : string) :
  (times specifier (evaluated (lifetime es_import calls (boot bundled))) <= 1)%nat /\
  requested (lifetime es_import calls (boot bundled))
    = rev (omap dictionary_bundle calls) /\
  getDictionary es_import "fr" = es_import fr_dictionary /\
  getDictionary es_import "en" = es_import en_dictionary.
Proof.
  split; [|split; [|split]].
  - apply times_NoDup.
    apply (lifetime_coherent calls (boot bundled)), boot_coherent.
  - rewrite lifetime_requested. simpl. apply app_nil_r.
  - apply getDictionary_is_import.
  - apply getDictionary_is_import.
Qed.

End LoaderFacts.

(** ** The layout and the page components *)
Section PagesFacts.
Import Async Host Loader Locales Access Pages.

Lemma es_import_succeeds (specifier : string) (h : state) :
  is_Some (resources h !! specifier) ->
  exists m h', es_import specifier h = (Returned m, h')
               /\ resources h' = resources h.
Proof.
  intros [m Hm]. unfold es_import.
  destruct (registry h !! specifier) as [m'|]; [eauto|].
  rewrite Hm. eauto.
Qed.

Lemma getProjects_fr (import : string -> M Json) :
  getProjects import "fr" = import fr_projects.
Proof.
  unfold getProjects, projectsByLocale. rewrite lookup_insert_eq.
  reflexivity.
Qed.

Lemma getDictionary_fr (import : string -> M Json) :
  getDictionary import "fr" = import fr_dictionary.
Proof. apply getDictionary_is_import. Qed.

(** With an invalid locale parameter a page is the page for [fr]. *)
Lemma page_of_invalid_locale (import : string -> M Json) (localeParam : string) :
  isLocale localeParam = false ->
  Forall (fun page => page localeParam = page "fr") (pages import).
Proof.
  intros Hloc. unfold pages.
  repeat constructor;
    unfold HomePage, ProjectsPage, ApproachArchitecturePage, ChatPage,
      ContactPage; rewrite Hloc; reflexivity.
Qed.

Lemma member_readable (key : string) (j : Json) :
  j <> JNull -> exists r, member key (Some j) = Returned r.
Proof. destruct j; simpl; eauto. congruence. Qed.

Lemma readable_one (key : string) (v : option Json) :
  readable (read [key] v) ->
  exists j, member key v = Returned (Some j) /\ j <> JNull.
Proof.
  intros (j & H & Hn). cbn [read Async.bind] in H.
  destruct (member key v) as [r|] eqn:H1; [|discriminate].
  cbn [Async.bind] in H. injection H as ->. exists j. auto.
Qed.

Lemma readable_two (k1 k2 : string) (v : option Json) :
  readable (read [k1; k2] v) ->
  exists j1 j2, member k1 v = Returned j1 /\
                member k2 j1 = Returned (Some j2) /\ j2 <> JNull.
Proof.
  intros (j & H & Hn). cbn [read Async.bind] in H.
  destruct (member k1 v) as [j1|] eqn:H1; [|discriminate].
  cbn [Async.bind] in H.
  destruct (member k2 j1) as [r|] eqn:H2; [|discriminate].
  cbn [Async.bind] in H. injection H as ->.
  exists j1, j. split; [reflexivity | split; [exact H2 | exact Hn]].
Qed.

Ltac read_member :=
  match goal with
  | H : ?j <> JNull |- context [member ?k (Some ?j)] =>
      let r := fresh "r" in
      destruct (member_readable k j H) as [r ->]; cbn [Async.bind read]
  end.

Lemma home_view_renders (locale : string) (dict : Json) :
  readable (read ["home"] (Some dict)) ->
  exists out, home_view locale dict = Returned out
              /\ locale_of out = Some locale.
Proof.
  intros H. destruct (readable_one _ _ H) as (home & Hhome & Hn).
  unfold home_view. cbn [read Async.bind]. rewrite Hhome.
  cbn [Async.bind read]. repeat read_member.
  eexists. split; reflexivity.
Qed.

Lemma project_article_renders (dict project : Json) :
  readable (read ["projects"; "labels"] (Some dict)) ->
  project <> JNull ->
  exists out, project_article dict project = Returned out.
Proof.
  intros H Hproject.
  destruct (readable_two _ _ _ H) as (section & labels & Hs & Hl & Hn).
  unfold project_article. cbn [read Async.bind].
  rewrite Hs. cbn [Async.bind read]. rewrite Hl. cbn [Async.bind read].
  repeat read_member. eexists. reflexivity.
Qed.

Lemma step_item_renders (step : Json) :
  step <> JNull -> exists out, step_item step = Returned out.
Proof.
  intros Hstep. unfold step_item. repeat read_member.
  eexists. reflexivity.
Qed.

Lemma map_outcome_total {A B} (f : A -> outcome B) (items : list A) :
  Forall (fun x => exists y, f x = Returned y) items ->
  exists ys, map_outcome f items = Returned ys.
Proof.
  induction 1 as [|x items [y Hy] _ [ys Hys]]; simpl; [eauto|].
  rewrite Hy. simpl. rewrite Hys. simpl. eauto.
Qed.

Lemma array_map_total (f : Json -> outcome Markup) (v : option Json) :
  listable (Returned v) ->
  (forall j, j <> JNull -> exists out, f j = Returned out) ->
  exists outs, array_map f v = Returned outs.
Proof.
  intros (items & [= ->] & Hitems) Hf. simpl.
  apply map_outcome_total. eapply Forall_impl; [exact Hitems|].
  exact Hf.
Qed.

Lemma projects_view_renders (locale : string) (dict projects : Json) :
  complete_build dict projects ->
  exists out, projects_view locale dict projects = Returned out
              /\ locale_of out = Some locale.
Proof.
  intros [_ Hp Hlabels _ _ Hlist].
  destruct (readable_one _ _ Hp) as (section & Hs & Hn).
  destruct (array_map_total (project_article dict) (Some projects) Hlist)
    as [articles Harticles].
  { intros j Hj. apply project_article_renders; assumption. }
  unfold projects_view. cbn [read Async.bind]. rewrite Hs.
  cbn [Async.bind read]. repeat read_member. rewrite Harticles.
  eexists. split; reflexivity.
Qed.

Lemma approach_view_renders (locale : string) (dict projects : Json) :
  complete_build dict projects ->
  exists out, approach_view locale dict = Returned out
              /\ locale_of out = Some locale.
Proof.
  intros [_ _ _ Ha Hsteps _].
  destruct (readable_one _ _ Ha) as (section & Hs & Hn).
  destruct Hsteps as (items & Hread & Hitems).
  assert (Hst : member "steps" (Some section) = Returned (Some (JArray items))).
  { cbn [read Async.bind] in Hread. rewrite Hs in Hread.
    cbn [Async.bind] in Hread.
    destruct (member "steps" (Some section)); [|discriminate].
    cbn [Async.bind] in Hread. exact Hread. }
  destruct (array_map_total step_item (Some (JArray items))) as [lis Hlis].
  { exists items. auto. }
  { intros j Hj. apply step_item_renders, Hj. }
  unfold approach_view. cbn [read Async.bind]. rewrite Hs.
  cbn [Async.bind read]. rewrite Hst.
  destruct (member_readable "title" section Hn) as [t ->].
  destruct (member_readable "intro" section Hn) as [i ->].
  cbn [Async.bind read]. rewrite Hlis.
  eexists. split; reflexivity.
Qed.



Lemma sample_build_complete : complete_build sample_dictionary sample_projects.
Proof.
  split; try (eexists; split; [reflexivity | discriminate]);
    eexists; (split; [reflexivity | repeat constructor; discriminate]).
Qed.


(** A bundle without the section that a page reads makes the page reject,
    whatever the locale parameter: here [ProjectsPage] on a dictionary that
    has a [home] section only. *)
Example projects_page_needs_its_section :
  let h := boot {[ fr_dictionary := JObject [("home", JObject [])];
                   fr_projects := JArray [] ]} in
  (exists msg, fst (ProjectsPage es_import "xx" h) = Thrown (TypeError msg)) /\
  exists out, fst (HomePage es_import "xx" h) = Returned out.
Proof. split; eexists; reflexivity. Qed.

End PagesFacts.

(** ** The backend proxy routes *)
Section ApiFacts.
Import Async Api.
Local Open Scope Z_scope.

Variable NEXT_PUBLIC_API_BASE_URL : option string.
Variable fetch : string -> RequestInit -> outcome FetchResponse.
Variable JSON_stringify : Json -> string.

Local Abbreviation baseUrl := (getApiBaseUrl NEXT_PUBLIC_API_BASE_URL).
Local Abbreviation GET := (GET NEXT_PUBLIC_API_BASE_URL fetch).
Local Abbreviation POST := (POST NEXT_PUBLIC_API_BASE_URL fetch JSON_stringify).
Local Abbreviation chat_forward :=
  (chat_forward NEXT_PUBLIC_API_BASE_URL fetch JSON_stringify).
Local Abbreviation step_throws :=
  (step_throws NEXT_PUBLIC_API_BASE_URL fetch JSON_stringify).
Local Abbreviation backend_sent_envelope :=
  (backend_sent_envelope NEXT_PUBLIC_API_BASE_URL fetch JSON_stringify).

Lemma NextResponse_json_inv (data : Json) (status : Z) (r : Response) :
  NextResponse_json data status = Returned r ->
  r = {| response_body := data; response_status := status |}.
Proof.
  unfold NextResponse_json.
  destruct ((status <? 200) || (599 <? status)); [discriminate|].
  destruct (null_body_status status); [discriminate|].
  intros [= <-]. reflexivity.
Qed.

(** Whatever is caught, the handlers answer with their envelope. *)
Lemma POST_caught (request : Request) (e : Exn) :
  chat_forward request = Thrown e ->
  POST request = Returned {| response_body := chat_envelope;
                             response_status := 502 |}.
Proof. unfold Api.POST. intros ->. reflexivity. Qed.

(** Without a throw the route's answer is the one built from the
    backend's. *)
Lemma POST_forwarded (request : Request) (r : Response) :
  chat_forward request = Returned r -> POST request = Returned r.
Proof. unfold Api.POST. intros ->. reflexivity. Qed.

Lemma step_throws_iff (request : Request) :
  step_throws request <-> throws (chat_forward request).
Proof.
  unfold throws, Api.chat_forward. split.
  - intros [e H | payload e H1 H2 | payload r e H1 H2 H3
           | payload r data e H1 H2 H3 H4]; exists e.
    + rewrite H. reflexivity.
    + rewrite H1. simpl. rewrite H2. reflexivity.
    + rewrite H1. simpl. rewrite H2. simpl. rewrite H3. reflexivity.
    + rewrite H1. simpl. rewrite H2. simpl. rewrite H3. simpl. exact H4.
  - intros [e He].
    destruct (request_json request) as [payload|e1] eqn:H1;
      [|eapply request_body_not_json; eassumption].
    simpl in He.
    destruct (fetch _ (chat_init JSON_stringify payload)) as [r|e2] eqn:H2;
      [|eapply fetch_rejected; eassumption].
    simpl in He.
    destruct (fetched_json r) as [data|e3] eqn:H3;
      [|eapply backend_body_not_json; eassumption].
    simpl in He. eapply response_refused; eassumption.
Qed.

Lemma backend_sent_envelope_iff (request : Request) :
  backend_sent_envelope request <->
  chat_forward request = Returned {| response_body := chat_envelope;
                                     response_status := 502 |}.
Proof.
  unfold Api.backend_sent_envelope, Api.chat_forward. split.
  - intros (payload & r & H1 & H2 & H3 & H4).
    rewrite H1. simpl. rewrite H2. simpl. rewrite H3, H4. reflexivity.
  - destruct (request_json request) as [payload|] eqn:H1; [|discriminate].
    simpl.
    destruct (fetch _ (chat_init JSON_stringify payload)) as [r|] eqn:H2;
      [|discriminate].
    simpl. destruct (fetched_json r) as [data|] eqn:H3; [|discriminate].
    simpl. intros H. apply NextResponse_json_inv in H.
    injection H as Hbody Hstatus. exists payload, r. subst data.
    repeat split; auto.
Qed.

(** C2: when the forwarded GET fails, the health route answers exactly
    [{status: "error", reason: "backend_unreachable"}] with status 502. *)
Theorem health_unreachable_envelope (e : Exn) :
  fetch (baseUrl +:+ "/health") (health_init) = Thrown e ->
  GET = Returned {| response_body :=
                      JObject [("status", JString "error");
                               ("reason", JString "backend_unreachable")];
                    response_status := 502 |}.
Proof. unfold Api.GET, health_forward. intros ->. reflexivity. Qed.

(** C3: when the forwarded POST fails, the chat route answers exactly
    [{message: "Backend unreachable"}] with status 502. *)
Theorem chat_unreachable_envelope (request : Request) (payload : Json)
    (e : Exn) :
  request_json request = Returned payload ->
  fetch (baseUrl +:+ "/chat") (chat_init JSON_stringify payload) = Thrown e ->
  POST request = Returned {| response_body :=
                               JObject [("message",
                                         JString "Backend unreachable")];
                             response_status := 502 |}.
Proof.
  intros H1 H2. apply POST_caught with e.
  unfold Api.chat_forward. rewrite H1. simpl. rewrite H2. reflexivity.
Qed.

(** C10 (amended): the chat route answers its 502 envelope whenever a step
    of the forward throws (an unreadable request body and an unreadable
    backend body among them), and otherwise only when the backend itself
    sent that envelope with status 502, which is then passed on as it
    is. *)
Theorem chat_envelope_iff_throw_or_echo (request : Request) :
  POST request = Returned {| response_body := chat_envelope;
                             response_status := 502 |}
  <-> step_throws request \/ backend_sent_envelope request.
Proof.
  rewrite step_throws_iff, backend_sent_envelope_iff. unfold throws. split.
  - intros H. destruct (chat_forward request) as [r|e] eqn:Hf.
    + right. rewrite (POST_forwarded _ _ Hf) in H. exact H.
    + left. eauto.
  - intros [[e He] | Hr].
    + apply POST_caught with e. exact He.
    + apply POST_forwarded. exact Hr.
Qed.

End ApiFacts.

Section ApiInstances.
Import Async Api.
Local Open Scope Z_scope.

Lemma health_unreachable_envelope_witness :
  GET None unreachable_fetch =
  Returned {| response_body := health_envelope; response_status := 502 |}.
Proof.
  apply (health_unreachable_envelope None unreachable_fetch
           (NetworkError "fetch failed")).
  reflexivity.
Defined.

Lemma chat_unreachable_envelope_witness :
  POST None unreachable_fetch blank_stringify ping =
  Returned {| response_body := chat_envelope; response_status := 502 |}.
Proof.
  apply (chat_unreachable_envelope None unreachable_fetch blank_stringify
           ping (JObject [("message", JString "ping")])
           (NetworkError "fetch failed")); reflexivity.
Defined.

(** C10, as stated, fails in the "only if" direction: with a backend that
    answers 502 and [{message: "Backend unreachable"}], no step throws and
    the route still answers its envelope. *)
Lemma envelope_without_throw :
  POST None echoing_fetch blank_stringify ping =
    Returned {| response_body := chat_envelope; response_status := 502 |} /\
  ~ step_throws None echoing_fetch blank_stringify ping /\
  ~ throws (chat_forward None echoing_fetch blank_stringify ping).
Proof.
  assert (Hno : ~ throws (chat_forward None echoing_fetch blank_stringify ping)).
  { intros [e He]. discriminate He. }
  split; [reflexivity|]. split; [|exact Hno].
  intros H. apply step_throws_iff in H. exact (Hno H).
Qed.

Lemma chat_envelope_iff_throw_or_echo_witness :
  POST None unreachable_fetch blank_stringify
    {| request_json := Thrown (SyntaxError "Unexpected token") |} =
  Returned {| response_body := chat_envelope; response_status := 502 |}.
Proof.
  apply (chat_envelope_iff_throw_or_echo None unreachable_fetch
           blank_stringify).
  left. apply request_body_not_json with (SyntaxError "Unexpected token").
  reflexivity.
Defined.

End ApiInstances.

(** ** The chat panel *)
Section ChatFacts.
Import Chat.

Lemma trimStart_whitespace (s : jstring) :
  Forall (fun c => isWhiteSpace c = true) s -> trimStart s = [].
Proof.
  induction 1 as [|c s Hc _ IH]; [reflexivity|].
  simpl. rewrite Hc. exact IH.
Qed.

Lemma trim_whitespace (s : jstring) :
  Forall (fun c => isWhiteSpace c = true) s -> trim s = [].
Proof.
  intros H. unfold trim, trimEnd. rewrite (trimStart_whitespace _ H).
  reflexivity.
Qed.

(** The guard of [handleSend], read off the state. *)
Lemma handleSend_guard (locale : string) (now : Z) (stamp : jstring)
    (st : State) :
  truthy (trim (input st)) = false \/ isProcessing st = true
    \/ booted st = false ->
  handleSend locale now stamp st = (st, []).
Proof.
  intros H. unfold handleSend. cbv zeta.
  destruct (truthy (trim (input st))), (isProcessing st), (booted st);
    try reflexivity.
  destruct H as [H | [H | H]]; discriminate.
Qed.

(** C9: submitting an input that is empty or made of whitespace only
    issues no network call and leaves the whole state as it was: the
    message list, the processing flag and the metrics with it. *)
Theorem blank_input_is_ignored (locale : string) (now : Z)
    (stamp : jstring) (st : State) :
  Forall (fun c => isWhiteSpace c = true) (input st) ->
  handleSend locale now stamp st = (st, []) /\
  messages (fst (handleSend locale now stamp st)) = messages st /\
  isProcessing (fst (handleSend locale now stamp st)) = isProcessing st /\
  metrics (fst (handleSend locale now stamp st)) = metrics st /\
  snd (handleSend locale now stamp st) = [].
Proof.
  intros H.
  assert (Hs : handleSend locale now stamp st = (st, [])).
  { apply handleSend_guard. left. rewrite (trim_whitespace _ H).
    reflexivity. }
  rewrite Hs. repeat split.
Qed.

Lemma blank_input_is_ignored_witness :
  let st := {| messages := []; input := (lit "  " ++ [9; 160; 8232]%N)%list;
               isProcessing := false; typingText := []; typingId := None;
               isDisconnecting := false; booted := true;
               sessionId := lit "a3f9";
               metrics := {| latency := 42; tokenGen := 38;
                             memory_tenths := 42; tokensUsed := 0 |};
               uptime := 7; pendingTextRef := [] |} in
  handleSend "fr" 1700000000000 (lit "12:00:00") st = (st, []).
Proof.
  intros st.
  apply (blank_input_is_ignored "fr" 1700000000000 (lit "12:00:00") st).
  repeat constructor.
Defined.

(** The guard is what stops a blank input: the same state with a word in
    the input sends. *)
Example word_input_is_sent :
  let st := {| messages := []; input := lit " hi  there ";
               isProcessing := false; typingText := []; typingId := None;
               isDisconnecting := false; booted := true;
               sessionId := lit "a3f9";
               metrics := {| latency := 42; tokenGen := 38;
                             memory_tenths := 42; tokensUsed := 0 |};
               uptime := 7; pendingTextRef := [] |} in
  List.map body_message (snd (handleSend "fr" 17 (lit "12:00:00") st))
    = [lit "hi  there"] /\
  tokensUsed (metrics (fst (handleSend "fr" 17 (lit "12:00:00") st))) = 6%Z /\
  isProcessing (fst (handleSend "fr" 17 (lit "12:00:00") st)) = true.
Proof. vm_compute. repeat split. Qed.

End ChatFacts.

(** * Further properties of the router and of the language switcher *)
Section RoutingMore.
Import Locales Router LanguageSwitcher.

Lemma isLocale_inv (s : string) : isLocale s = true -> s = "fr" \/ s = "en".
Proof.
  unfold isLocale, SUPPORTED_LOCALES. simpl.
  destruct (String.eqb_spec s "fr"); [auto|].
  destruct (String.eqb_spec s "en"); [auto|]. discriminate.
Qed.

Lemma locale_is_segment (s : string) : isLocale s = true -> is_segment s.
Proof.
  intros H. destruct (isLocale_inv _ H) as [-> | ->];
    (split; [discriminate | reflexivity]).
Qed.

Lemma split_pieces_no_slash (p : string) :
  Forall (fun piece => JS.no_slash piece = true) (JS.split "/" p).
Proof.
  induction p as [|c p IH]; simpl.
  - repeat constructor.
  - destruct (Ascii.eqb c "/") eqn:Hc.
    + constructor; [reflexivity | exact IH].
    + destruct (JS.split "/" p) as [|piece pieces].
      * repeat constructor. simpl. rewrite Hc. reflexivity.
      * inversion IH as [|? ? Hpiece Hrest]; subst. constructor; [|exact Hrest].
        simpl. rewrite Hc, Hpiece. reflexivity.
Qed.

Lemma filter_Boolean_segments (pieces : list string) :
  Forall (fun piece => JS.no_slash piece = true) pieces ->
  Forall is_segment (JS.filter_Boolean pieces).
Proof.
  induction 1 as [|piece pieces Hp _ IH]; simpl; [constructor|].
  destruct piece as [|c piece]; simpl; [exact IH|].
  constructor; [|exact IH]. split; [discriminate | exact Hp].
Qed.

Lemma filter_Boolean_of_segments (segments : list string) :
  Forall is_segment segments -> JS.filter_Boolean segments = segments.
Proof.
  unfold JS.filter_Boolean.
  induction 1 as [|s segments [Hne _] _ IH]; simpl; [reflexivity|].
  rewrite (truthy_nonempty _ Hne), IH. reflexivity.
Qed.

(** Splitting what [join] built gives the segments back. *)
Lemma split_join (s : string) (segments : list string) :
  Forall is_segment (s :: segments) ->
  JS.split "/" (JS.join "/" (s :: segments)) = s :: segments.
Proof.
  revert s. induction segments as [|s2 segments IH]; intros s Hseg.
  - inversion Hseg as [|? ? [_ Hs] _]; subst. simpl.
    apply split_no_slash, Hs.
  - inversion Hseg as [|? ? [_ Hs] Hrest]; subst.
    change (JS.join "/" (s :: s2 :: segments))
      with (s +:+ String "/" (JS.join "/" (s2 :: segments))).
    rewrite (split_segment _ _ Hs), (IH _ Hrest). reflexivity.
Qed.

Lemma parts_of_path (segments : list string) :
  Forall is_segment segments ->
  JS.filter_Boolean (JS.split "/" (path_of segments)) = segments.
Proof.
  intros Hseg. unfold path_of. destruct segments as [|s segments].
  - reflexivity.
  - change ("/" +:+ JS.join "/" (s :: segments))
      with (String "/" (JS.join "/" (s :: segments))).
    rewrite split_leading_slash, (split_join _ _ Hseg).
    change (JS.filter_Boolean (EmptyString :: s :: segments))
      with (JS.filter_Boolean (s :: segments)).
    apply filter_Boolean_of_segments, Hseg.
Qed.

Lemma parts_are_segments (p : string) :
  Forall is_segment (JS.filter_Boolean (JS.split "/" p)).
Proof. apply filter_Boolean_segments, split_pieces_no_slash. Qed.

Lemma swapLocale_spec (p nextLocale : string) :
  swapLocale p nextLocale =
    path_of (nextLocale :: tail (JS.filter_Boolean (JS.split "/" p))).
Proof.
  unfold swapLocale, path_of.
  destruct (JS.filter_Boolean (JS.split "/" p)); reflexivity.
Qed.

Lemma path_of_not_root (s : string) (segments : list string) :
  s <> EmptyString -> String.eqb (path_of (s :: segments)) "/" = false.
Proof.
  intros Hne. unfold path_of. destruct s as [|c s]; [congruence|].
  destruct segments; reflexivity.
Qed.

Lemma test_dot_extension_app (pre ext : string) :
  ext <> EmptyString -> JS.no_slash ext = true ->
  JS.test_dot_extension (pre +:+ "." +:+ ext) = true.
Proof.
  intros Hne Hns. induction pre as [|c pre IH].
  - change (EmptyString +:+ "." +:+ ext) with (String "." ext).
    simpl. rewrite (truthy_nonempty _ Hne), Hns. reflexivity.
  - change (String c pre +:+ "." +:+ ext)
      with (String c (pre +:+ "." +:+ ext)).
    simpl. rewrite IH. apply orb_true_r.
Qed.

(** X1: the regular expression [PUBLIC_FILE] matches exactly the paths that
    end in a dot followed by one or more characters other than [/]. *)
Theorem PUBLIC_FILE_matches_extension (p : string) :
  PUBLIC_FILE_test p = true <->
  exists pre ext, p = pre +:+ "." +:+ ext /\ ext <> EmptyString
                  /\ JS.no_slash ext = true.
Proof.
  unfold PUBLIC_FILE_test. split.
  - induction p as [|c p IH]; simpl; [discriminate|].
    intros H. apply orb_true_iff in H as [H | H].
    + apply andb_true_iff in H as [H Hns].
      apply andb_true_iff in H as [Hc Hne].
      apply Ascii.eqb_eq in Hc. subst c.
      exists EmptyString, p. repeat split; [|exact Hns].
      intros ->. discriminate.
    + destruct (IH H) as (pre & ext & -> & Hne & Hns).
      exists (String c pre), ext. repeat split; assumption.
  - intros (pre & ext & -> & Hne & Hns).
    apply test_dot_extension_app; assumption.
Qed.

(** X2: a request for a file with an extension is passed through, in
    whatever directory the file is. *)
Theorem file_paths_pass_through (url : NextURL) (pre ext : string) :
  pathname url = pre +:+ "." +:+ ext ->
  ext <> EmptyString ->
  JS.no_slash ext = true ->
  proxy url = next.
Proof.
  intros Hp Hne Hns. unfold proxy, passes_untouched, PUBLIC_FILE_test.
  cbv zeta. rewrite Hp, (test_dot_extension_app _ _ Hne Hns).
  rewrite !orb_true_r. reflexivity.
Qed.

Lemma file_paths_pass_through_witness :
  proxy (mkURL "https://site" "/cv.pdf" "" "") = next.
Proof.
  apply (file_paths_pass_through (mkURL "https://site" "/cv.pdf" "" "")
           "/cv" "pdf").
  - reflexivity.
  - discriminate.
  - reflexivity.
Defined.

Lemma proxy_of_first_locale (url : NextURL) (s : string) :
  isLocale s = true ->
  firstSegment (pathname url) = Some s ->
  proxy url = next.
Proof.
  intros Hloc Hfirst. unfold proxy. cbv zeta.
  destruct (passes_untouched _); [reflexivity|].
  destruct (String.eqb_spec (pathname url) "/") as [Hroot|_].
  - rewrite Hroot in Hfirst. discriminate.
  - rewrite Hfirst. unfold isLocale in Hloc. rewrite Hloc. reflexivity.
Qed.

(** X3: a path whose first segment is a supported locale ([/fr], [/en/...],
    and so the links [/${locale}], [/${locale}/chat] and
    [/${locale}/contact] that the components build) is passed through. *)
Theorem localized_paths_pass_through (url : NextURL) (s rest : string) :
  isLocale s = true ->
  pathname url = "/" +:+ s \/ pathname url = "/" +:+ s +:+ "/" +:+ rest ->
  proxy url = next.
Proof.
  intros Hloc Hp. apply proxy_of_first_locale with s; [exact Hloc|].
  pose proof (locale_is_segment _ Hloc) as Hseg.
  destruct Hp as [-> | ->].
  - apply firstSegment_bare, Hseg.
  - apply firstSegment_of_path, Hseg.
Qed.

Lemma localized_paths_pass_through_witness :
  proxy (mkURL "https://site" "/en/contact" "?x=1" "") = next.
Proof.
  apply (localized_paths_pass_through
           (mkURL "https://site" "/en/contact" "?x=1" "") "en" "contact").
  - reflexivity.
  - right. reflexivity.
Defined.

Lemma startsWith_slash (p : string) :
  JS.startsWith p "/" = true -> exists q, p = String "/" q.
Proof.
  unfold JS.startsWith. destruct p as [|c q]; [discriminate|].
  cbn -[ascii_dec].
  destruct (ascii_dec "/" c) as [<-|]; [eauto | discriminate].
Qed.

(** X4: the router never sends a request in a loop: the target of a
    redirect is a path the router passes through, and it differs from the
    request in its pathname only. *)
Theorem redirect_target_passes_through (url target : NextURL) :
  JS.startsWith (pathname url) "/" = true ->
  proxy url = redirect target ->
  proxy target = next /\
  origin target = origin url /\ search target = search url
  /\ hash target = hash url.
Proof.
  intros Hslash. unfold proxy at 1. cbv zeta.
  destruct (passes_untouched (pathname url)) eqn:Hpass; [discriminate|].
  destruct (String.eqb_spec (pathname url) "/") as [Hroot|Hroot].
  - intros [= <-]. repeat split.
  - destruct (negb _); [|discriminate]. intros [= <-].
    split; [|repeat split].
    destruct (startsWith_slash _ Hslash) as [q Hq].
    apply proxy_of_first_locale with "fr"; [reflexivity|].
    simpl. rewrite Hq.
    apply (firstSegment_of_path "fr" q). split; [discriminate|reflexivity].
Qed.

Lemma redirect_target_passes_through_witness :
  proxy (mkURL "https://site" "/fr/projets" "?x=1" "") = next.
Proof.
  apply (redirect_target_passes_through
           (mkURL "https://site" "/projets" "?x=1" "")
           (mkURL "https://site" "/fr/projets" "?x=1" "")); reflexivity.
Defined.

(** X5: on a path made of segments, the switcher replaces the first segment
    and keeps the others as they are. *)
Theorem swapLocale_replaces_first_segment
    (s nextLocale : string) (segments : list string) :
  Forall is_segment (s :: segments) ->
  swapLocale (path_of (s :: segments)) nextLocale
    = path_of (nextLocale :: segments).
Proof.
  intros Hseg. rewrite swapLocale_spec, (parts_of_path _ Hseg). reflexivity.
Qed.

Lemma swapLocale_replaces_first_segment_witness :
  swapLocale "/en/approche-architecture/details" "fr"
    = "/fr/approche-architecture/details".
Proof.
  apply (swapLocale_replaces_first_segment "en" "fr"
           ["approche-architecture"; "details"]).
  repeat constructor; discriminate.
Defined.

Lemma swapLocale_twice (p a b : string) :
  is_segment a -> swapLocale (swapLocale p a) b = swapLocale p b.
Proof.
  intros Ha. rewrite (swapLocale_spec p a), swapLocale_spec.
  rewrite parts_of_path.
  - simpl tail. symmetry. apply swapLocale_spec.
  - constructor; [exact Ha|].
    pose proof (parts_are_segments p) as Hparts.
    destruct (JS.filter_Boolean (JS.split "/" p)); [constructor|].
    inversion Hparts; assumption.
Qed.

(** X6: switching to another locale and back gives the path one started
    from. *)
Theorem swapLocale_round_trip (a b : string) (segments : list string) :
  Forall is_segment (a :: segments) ->
  is_segment b ->
  swapLocale (swapLocale (path_of (a :: segments)) b) a
    = path_of (a :: segments).
Proof.
  intros Hseg Hb. rewrite (swapLocale_twice _ _ _ Hb).
  rewrite swapLocale_spec, (parts_of_path _ Hseg). reflexivity.
Qed.

Lemma swapLocale_round_trip_witness :
  swapLocale (swapLocale "/fr/projets" "en") "fr" = "/fr/projets".
Proof.
  apply (swapLocale_round_trip "fr" "en" ["projets"]).
  - repeat constructor; discriminate.
  - split; [discriminate | reflexivity].
Defined.

(** X7: whatever the current pathname (absent, empty, with doubled or
    trailing slashes) and whatever the current locale, the link of the
    language switcher starts with a supported locale, differs in locale from
    [fr] exactly when the current locale is [fr], and is passed through by
    the router. *)
Theorem switcher_link_is_localized
    (usePathname : option string) (locale : string) (url : NextURL) :
  pathname url = href usePathname locale ->
  firstSegment (pathname url)
    = Some (if String.eqb locale "fr" then "en" else "fr") /\
  proxy url = next.
Proof.
  intros Hp.
  assert (Hfirst : firstSegment (pathname url)
            = Some (if String.eqb locale "fr" then "en" else "fr")).
  { rewrite Hp. unfold href. cbv zeta. rewrite swapLocale_spec.
    unfold firstSegment. rewrite parts_of_path; [reflexivity|].
    constructor.
    - destruct (String.eqb locale "fr"); (split; [discriminate|reflexivity]).
    - match goal with |- Forall _ (tail (JS.filter_Boolean (JS.split _ ?q))) =>
        pose proof (parts_are_segments q) as Hparts;
        destruct (JS.filter_Boolean (JS.split "/" q)); [constructor|];
        inversion Hparts; assumption
      end. }
  split; [exact Hfirst|].
  apply proxy_of_first_locale
    with (if String.eqb locale "fr" then "en" else "fr"); [|exact Hfirst].
  destruct (String.eqb locale "fr"); reflexivity.
Qed.

Lemma switcher_link_is_localized_witness :
  proxy (mkURL "https://site" "/en/projets" "" "") = next.
Proof.
  apply (switcher_link_is_localized (Some "//fr//projets/") "fr"
           (mkURL "https://site" "/en/projets" "" "")).
  reflexivity.
Defined.

End RoutingMore.

(** * Further properties of the loader, the layout and the metadata *)
Section DeliveryMore.
Import Async Host Loader Locales Pages Access Metadata.

Lemma boot_faithful (bundled : gmap string Json) : faithful (boot bundled).
Proof. intros specifier m. simpl. rewrite lookup_empty. discriminate. Qed.

Lemma es_import_faithful (specifier : string) (h : state) :
  faithful h ->
  faithful (snd (es_import specifier h)) /\
  resources (snd (es_import specifier h)) = resources h.
Proof.
  intros Hf. unfold es_import.
  destruct (registry h !! specifier) as [m|] eqn:Hm; [split; [exact Hf|reflexivity]|].
  destruct (resources h !! specifier) as [m|] eqn:Hr;
    [|split; [exact Hf|reflexivity]].
  split; [|reflexivity]. intros q v. simpl.
  destruct (decide (specifier = q)) as [<-|Hne].
  - rewrite lookup_insert_eq. intros [= <-]. exact Hr.
  - rewrite lookup_insert_ne by exact Hne. apply Hf.
Qed.

Lemma es_import_result (specifier : string) (h : state) :
  faithful h ->
  fst (es_import specifier h) =
    match resources h !! specifier with
    | Some m => Returned m
    | None => Thrown (ModuleNotFound specifier)
    end.
Proof.
  intros Hf. unfold es_import.
  destruct (registry h !! specifier) as [m|] eqn:Hm.
  - rewrite (Hf _ _ Hm). reflexivity.
  - destruct (resources h !! specifier); reflexivity.
Qed.

Lemma lifetime_faithful (calls : list string) (h : state) :
  faithful h ->
  faithful (lifetime es_import calls h) /\
  resources (lifetime es_import calls h) = resources h.
Proof.
  revert h. induction calls as [|locale calls IH]; intros h Hf; [auto|].
  simpl. rewrite getDictionary_is_import.
  destruct (dictionary_bundle locale) as [bundle|].
  - destruct (es_import_faithful bundle h Hf) as [Hf' Hres].
    destruct (IH _ Hf') as [Hf'' Hres']. split; [exact Hf''|congruence].
  - apply IH, Hf.
Qed.

(** X8: at any time of a process lifetime, the accessor settles to the
    bundle that was built for the locale asked, the same on every call; it
    rejects when, and only when, that bundle is missing from the build. *)
Theorem dictionary_is_the_bundle
    (bundled : gmap string Json) (calls : list string)
    (locale bundle : string) :
  dictionary_bundle locale = Some bundle ->
  fst (getDictionary es_import locale (lifetime es_import calls (boot bundled)))
    = match bundled !! bundle with
      | Some dict => Returned dict
      | None => Thrown (ModuleNotFound bundle)
      end.
Proof.
  intros Hb. rewrite getDictionary_is_import, Hb.
  destruct (lifetime_faithful calls (boot bundled) (boot_faithful bundled))
    as [Hf Hres].
  rewrite (es_import_result _ _ Hf), Hres. reflexivity.
Qed.

Lemma dictionary_is_the_bundle_witness :
  fst (getDictionary es_import "en"
         (lifetime es_import ["fr"; "en"; "fr"]
            (boot {[ fr_dictionary := JString "bonjour";
                     en_dictionary := JString "hello" ]})))
    = Returned (JString "hello").
Proof.
  exact (dictionary_is_the_bundle
           {[ fr_dictionary := JString "bonjour";
              en_dictionary := JString "hello" ]}
           ["fr"; "en"; "fr"] "en" en_dictionary eq_refl).
Defined.

(** X9: the layout renders every parameter that [generateStaticParams]
    lists, with that parameter as its locale: none of them meets
    [notFound()]. *)
Theorem static_params_render
    (params : Params) (children : list Markup) (h : state) :
  In params generateStaticParams ->
  is_Some (resources h !! fr_dictionary) ->
  is_Some (resources h !! en_dictionary) ->
  exists dict h',
    LocaleLayout es_import (locale params) children h =
      (Returned (Element "LocaleLayout" (locale params) dict
                   (Element "Header" (locale params) dict [] :: children)),
       h').
Proof.
  intros Hin Hfr Hen. unfold LocaleLayout.
  assert (Hb : exists bundle,
             isLocale (locale params) = true /\
             dictionary_bundle (locale params) = Some bundle /\
             is_Some (resources h !! bundle)).
  { simpl in Hin. destruct Hin as [<- | [<- | []]]; simpl.
    - exists fr_dictionary. auto.
    - exists en_dictionary. auto. }
  destruct Hb as (bundle & -> & Hb & Hres). simpl.
  rewrite getDictionary_is_import, Hb. unfold mbind.
  destruct (es_import_succeeds bundle h Hres) as (dict & h' & -> & _).
  exists dict, h'. reflexivity.
Qed.

Lemma static_params_render_witness :
  exists dict h',
    LocaleLayout es_import "en" []
      (boot {[ fr_dictionary := JObject []; en_dictionary := JObject [] ]}) =
      (Returned (Element "LocaleLayout" "en" dict
                   [Element "Header" "en" dict []]), h').
Proof.
  apply (static_params_render {| locale := "en" |} []
           (boot {[ fr_dictionary := JObject [];
                    en_dictionary := JObject [] ]})).
  - right. left. reflexivity.
  - exists (JObject []). reflexivity.
  - exists (JObject []). reflexivity.
Defined.

(** X10: for a parameter that is not a supported locale, each of the six
    [generateMetadata] functions settles to the empty metadata and asks the
    host for nothing, whatever the host. *)
Theorem metadata_of_invalid_locale
    (import : string -> M Json) (localeParam : string) :
  isLocale localeParam = false ->
  Forall (fun generateMetadata =>
            forall h, generateMetadata localeParam h
                      = (Returned empty_metadata, h))
    (metadata_functions import).
Proof.
  intros Hloc. unfold metadata_functions.
  repeat constructor; intros h;
    unfold layout_generateMetadata, home_generateMetadata,
      projects_generateMetadata, approach_generateMetadata,
      chat_generateMetadata, contact_generateMetadata, seo_metadata;
    rewrite Hloc; reflexivity.
Qed.

Lemma metadata_of_invalid_locale_witness :
  Forall (fun generateMetadata =>
            forall h, generateMetadata "de" h = (Returned empty_metadata, h))
    (metadata_functions es_import).
Proof. apply (metadata_of_invalid_locale es_import "de"). reflexivity. Defined.

(** X11: when the dictionary of a supported locale has no [seo] section,
    each of the six [generateMetadata] functions rejects with a [TypeError]
    instead of giving metadata without a title. *)
Theorem metadata_without_seo_section
    (import : string -> M Json) (locale bundle : string)
    (fields : list (string * Json)) (h h' : state) :
  dictionary_bundle locale = Some bundle ->
  import bundle h = (Returned (JObject fields), h') ->
  lookup_field "seo" fields = None ->
  Forall (fun generateMetadata =>
            exists msg, generateMetadata locale h = (Thrown (TypeError msg), h'))
    (metadata_functions import).
Proof.
  intros Hb Himp Hseo.
  assert (Hloc : isLocale locale = true).
  { apply isLocale_bundle. rewrite Hb. eauto. }
  unfold metadata_functions.
  repeat constructor;
    unfold layout_generateMetadata, home_generateMetadata,
      projects_generateMetadata, approach_generateMetadata,
      chat_generateMetadata, contact_generateMetadata, seo_metadata;
    rewrite Hloc; simpl; rewrite getDictionary_is_import, Hb;
    unfold mbind; rewrite Himp; unfold lift, member; rewrite Hseo;
    eexists; reflexivity.
Qed.

Lemma metadata_without_seo_section_witness :
  Forall (fun generateMetadata =>
            exists msg,
              generateMetadata "fr"
                (boot {[ fr_dictionary := JObject [("nav", JObject [])] ]})
              = (Thrown (TypeError msg),
                 snd (es_import fr_dictionary
                        (boot {[ fr_dictionary :=
                                   JObject [("nav", JObject [])] ]}))))
    (metadata_functions es_import).
Proof.
  apply (metadata_without_seo_section es_import "fr" fr_dictionary
           [("nav", JObject [])]); reflexivity.
Defined.

End DeliveryMore.

(** * Further properties of the proxy routes and of their clients *)
Section RoutesMore.
Import Async Api Access.
Local Open Scope Z_scope.

Variable NEXT_PUBLIC_API_BASE_URL : option string.
Variable fetch : string -> RequestInit -> outcome FetchResponse.
Variable JSON_stringify : Json -> string.

Local Abbreviation baseUrl := (getApiBaseUrl NEXT_PUBLIC_API_BASE_URL).
Local Abbreviation GET := (GET NEXT_PUBLIC_API_BASE_URL fetch).
Local Abbreviation POST := (POST NEXT_PUBLIC_API_BASE_URL fetch JSON_stringify).
Local Abbreviation health_forward :=
  (health_forward NEXT_PUBLIC_API_BASE_URL fetch).
Local Abbreviation chat_forward :=
  (chat_forward NEXT_PUBLIC_API_BASE_URL fetch JSON_stringify).

Lemma NextResponse_json_accepted (data : Json) (status : Z) :
  accepted status ->
  NextResponse_json data status
    = Returned {| response_body := data; response_status := status |}.
Proof.
  intros [[Hlo Hhi] Hnull]. unfold NextResponse_json.
  destruct (status <? 200) eqn:H1; [lia|].
  destruct (599 <? status) eqn:H2; [lia|].
  simpl. rewrite Hnull. reflexivity.
Qed.

Lemma NextResponse_json_returned (data : Json) (status : Z) (r : Response) :
  NextResponse_json data status = Returned r ->
  accepted status /\
  r = {| response_body := data; response_status := status |}.
Proof.
  unfold NextResponse_json, accepted.
  destruct (status <? 200) eqn:H1; [discriminate|].
  destruct (599 <? status) eqn:H2; [discriminate|]. simpl.
  destruct (null_body_status status); [discriminate|].
  intros [= <-]. repeat split; lia.
Qed.

Lemma health_forward_returned (r : Response) :
  health_forward = Returned r <->
  exists b data,
    fetch (baseUrl +:+ "/health") health_init = Returned b /\
    fetched_json b = Returned data /\
    accepted (fetched_status b) /\
    r = {| response_body := data; response_status := fetched_status b |}.
Proof.
  unfold Api.health_forward. split.
  - destruct (fetch _ health_init) as [b|] eqn:Hb; [|discriminate]. simpl.
    destruct (fetched_json b) as [data|] eqn:Hd; [|discriminate]. simpl.
    intros H. apply NextResponse_json_returned in H as [Hacc ->].
    exists b, data. auto.
  - intros (b & data & -> & Hd & Hacc & ->). simpl. rewrite Hd. simpl.
    apply NextResponse_json_accepted, Hacc.
Qed.

Lemma chat_forward_returned (request : Request) (r : Response) :
  chat_forward request = Returned r <->
  exists payload b data,
    request_json request = Returned payload /\
    fetch (baseUrl +:+ "/chat") (chat_init JSON_stringify payload)
      = Returned b /\
    fetched_json b = Returned data /\
    accepted (fetched_status b) /\
    r = {| response_body := data; response_status := fetched_status b |}.
Proof.
  unfold Api.chat_forward. split.
  - destruct (request_json request) as [payload|] eqn:Hp; [|discriminate].
    simpl.
    destruct (fetch _ (chat_init JSON_stringify payload)) as [b|] eqn:Hb;
      [|discriminate]. simpl.
    destruct (fetched_json b) as [data|] eqn:Hd; [|discriminate]. simpl.
    intros H. apply NextResponse_json_returned in H as [Hacc ->].
    exists payload, b, data. auto.
  - intros (payload & b & data & -> & Hb & Hd & Hacc & ->). simpl.
    rewrite Hb. simpl. rewrite Hd. simpl.
    apply NextResponse_json_accepted, Hacc.
Qed.

(** X12: the health route never rejects.  It answers either its envelope
    with status 502, or the JSON body and the status that the backend
    answered, unchanged; in both cases with a status from 200 to 599. *)
Theorem health_route_always_answers :
  exists r,
    GET = Returned r /\
    200 <= response_status r <= 599 /\
    (r = {| response_body := health_envelope; response_status := 502 |} \/
     exists b data,
       fetch (baseUrl +:+ "/health") health_init = Returned b /\
       fetched_json b = Returned data /\
       r = {| response_body := data; response_status := fetched_status b |}).
Proof.
  unfold Api.GET. destruct health_forward as [r|e] eqn:Hf.
  - apply health_forward_returned in Hf
      as (b & data & Hb & Hd & [Hrange _] & ->).
    eexists. split; [reflexivity|]. split; [exact Hrange|].
    right. exists b, data. auto.
  - eexists. split; [reflexivity|]. simpl. split; [lia|]. left. reflexivity.
Qed.

(** X13: the chat route never rejects either, whatever the request: it
    answers its envelope with status 502, or the backend's JSON body and
    status unchanged. *)
Theorem chat_route_always_answers (request : Request) :
  exists r,
    POST request = Returned r /\
    200 <= response_status r <= 599 /\
    (r = {| response_body := chat_envelope; response_status := 502 |} \/
     exists payload b data,
       request_json request = Returned payload /\
       fetch (baseUrl +:+ "/chat") (chat_init JSON_stringify payload)
         = Returned b /\
       fetched_json b = Returned data /\
       r = {| response_body := data; response_status := fetched_status b |}).
Proof.
  unfold Api.POST. destruct (chat_forward request) as [r|e] eqn:Hf.
  - apply chat_forward_returned in Hf
      as (payload & b & data & Hp & Hb & Hd & [Hrange _] & ->).
    eexists. split; [reflexivity|]. split; [exact Hrange|].
    right. exists payload, b, data. auto.
  - eexists. split; [reflexivity|]. simpl. split; [lia|]. left. reflexivity.
Qed.

(** X14: an error status of the backend is not turned into the envelope:
    whenever the backend answers a JSON body with a status from 200 to 599
    other than 204, 205 and 304, both routes pass body and status on as
    they are. *)
Theorem routes_forward_verbatim
    (request : Request) (payload : Json) (b : FetchResponse) (data : Json) :
  fetched_json b = Returned data ->
  200 <= fetched_status b <= 599 ->
  null_body_status (fetched_status b) = false ->
  (fetch (baseUrl +:+ "/health") health_init = Returned b ->
   GET = Returned {| response_body := data;
                     response_status := fetched_status b |}) /\
  (request_json request = Returned payload ->
   fetch (baseUrl +:+ "/chat") (chat_init JSON_stringify payload)
     = Returned b ->
   POST request = Returned {| response_body := data;
                              response_status := fetched_status b |}).
Proof.
  intros Hd Hrange Hnull.
  assert (Hacc : accepted (fetched_status b)) by (split; assumption).
  split.
  - intros Hb. unfold Api.GET.
    assert (Hf : health_forward
              = Returned {| response_body := data;
                            response_status := fetched_status b |}).
    { apply health_forward_returned. exists b, data. auto. }
    rewrite Hf. reflexivity.
  - intros Hp Hb. unfold Api.POST.
    assert (Hf : chat_forward request
              = Returned {| response_body := data;
                            response_status := fetched_status b |}).
    { apply chat_forward_returned. exists payload, b, data. auto. }
    rewrite Hf. reflexivity.
Qed.

Lemma backend_status_ok_when (r : Response) :
  GET = Returned r ->
  BackendStatus.run false (BackendStatus.delivered r) BackendStatus.loading
    = BackendStatus.ok
  <->
  exists b data,
    fetch (baseUrl +:+ "/health") health_init = Returned b /\
    fetched_json b = Returned data /\
    200 <= fetched_status b <= 299 /\
    null_body_status (fetched_status b) = false /\
    member "status" (Some data) = Returned (Some (JString "ok")).
Proof.
  intros HGET.
  assert (Hrun : forall data status,
            BackendStatus.run false
              (BackendStatus.delivered
                 {| response_body := data; response_status := status |})
              BackendStatus.loading = BackendStatus.ok
            <-> 200 <= status <= 299
                /\ member "status" (Some data) = Returned (Some (JString "ok"))).
  { intros data status.
    unfold BackendStatus.run, BackendStatus.delivered, BackendStatus.res_ok.
    cbn -[member Z.leb].
    destruct (200 <=? status) eqn:H1; cbn -[member Z.leb];
      [|split; [discriminate | lia]].
    destruct (status <=? 299) eqn:H2; cbn -[member Z.leb];
      [|split; [discriminate | lia]].
    destruct (member "status" (Some data)) as [[[| | |s| |]|]|];
      cbn; try (split; [discriminate | intros [_ [=]]]).
    destruct (String.eqb_spec s "ok") as [->|Hne].
    - split; [intros _; split; [lia | reflexivity] | reflexivity].
    - split; [discriminate | intros [_ [=]]; congruence]. }
  unfold Api.GET in HGET. destruct health_forward as [r0|e] eqn:Hf.
  - simpl in HGET. injection HGET as ->.
    pose proof Hf as Hcases.
    apply health_forward_returned in Hcases
      as (b & data & Hb & Hd & [Hrange Hnull] & ->).
    rewrite Hrun. split.
    + intros [Hr Hm]. exists b, data. auto.
    + intros (b' & data' & Hb' & Hd' & Hr & _ & Hm).
      rewrite Hb in Hb'. injection Hb' as <-.
      rewrite Hd in Hd'. injection Hd' as <-. auto.
  - simpl in HGET. injection HGET as <-. rewrite Hrun.
    split; [intros [Hr _]; lia|].
    intros (b & data & Hb & Hd & Hr & Hnull & _).
    assert (Hret : health_forward
              = Returned {| response_body := data;
                            response_status := fetched_status b |}).
    { apply health_forward_returned. exists b, data.
      repeat split; auto; lia. }
    congruence.
Qed.

Lemma run_decides (fetched : outcome BackendStatus.Res)
    (state : BackendStatus.Health) :
  BackendStatus.run false fetched state = BackendStatus.ok \/
  BackendStatus.run false fetched state = BackendStatus.error.
Proof.
  unfold BackendStatus.run. destruct fetched as [res|]; [|auto].
  cbn -[member BackendStatus.res_ok].
  destruct (BackendStatus.res_json res) as [data|]; [|auto].
  cbn -[member BackendStatus.res_ok].
  destruct (BackendStatus.res_ok res); [|auto].
  destruct (member "status" (Some data)) as [status|]; [|auto].
  cbn. destruct (BackendStatus.is_ok_string status); auto.
Qed.

(** X15: the status widget, fed by the health route, leaves [loading] for
    [ok] or for [error]: it shows [ok] exactly when the backend answered a
    JSON object whose [status] is the string [ok], with a status from 200 to
    299 other than 204 and 205, and it shows [error] in every other case. *)
Theorem backend_status_ok_iff (r : Response) :
  GET = Returned r ->
  (BackendStatus.run false (BackendStatus.delivered r) BackendStatus.loading
     = BackendStatus.ok
   <->
   exists b data,
     fetch (baseUrl +:+ "/health") health_init = Returned b /\
     fetched_json b = Returned data /\
     200 <= fetched_status b <= 299 /\
     null_body_status (fetched_status b) = false /\
     member "status" (Some data) = Returned (Some (JString "ok"))) /\
  (BackendStatus.run false (BackendStatus.delivered r) BackendStatus.loading
     = BackendStatus.error
   <->
   ~ exists b data,
       fetch (baseUrl +:+ "/health") health_init = Returned b /\
       fetched_json b = Returned data /\
       200 <= fetched_status b <= 299 /\
       null_body_status (fetched_status b) = false /\
       member "status" (Some data) = Returned (Some (JString "ok"))).
Proof.
  intros HGET. pose proof (backend_status_ok_when r HGET) as Hok.
  split; [exact Hok|]. split.
  - intros Herr Hcond. apply Hok in Hcond. congruence.
  - intros Hnot.
    destruct (run_decides (BackendStatus.delivered r) BackendStatus.loading)
      as [H | H]; [|exact H].
    apply Hok in H. contradiction.
Qed.

(** X16: the chat tester does not look at the status of the answer: when
    the forward of the chat route throws, the tester shows the route's
    envelope message behind its OK prefix, and stops loading. *)
Theorem chat_tester_reports_envelope_as_ok
    (request : Request) (e : Exn) (props : ChatTester.Props)
    (st : ChatTester.State) :
  chat_forward request = Thrown e ->
  exists r settled,
    POST request = Returned r /\
    response_status r = 502 /\
    ChatTester.delivered (response_body r) = Some settled /\
    ChatTester.onSubmit_settled props settled st =
      {| ChatTester.message := ChatTester.message st;
         ChatTester.result :=
           (ChatTester.okPrefix props
              ++ Chat.lit " Backend unreachable")%list;
         ChatTester.isLoading := false |}.
Proof.
  intros Hf. unfold Api.POST. rewrite Hf. simpl.
  eexists. eexists. split; [reflexivity|]. split; [reflexivity|].
  split; reflexivity.
Qed.

End RoutesMore.

Section ClientsMore.
Import Async Api Access.
Local Open Scope Z_scope.

(** X17: once the effect is cancelled (the component is unmounted), the
    settling of the health request changes nothing, whatever it is. *)
Theorem cancelled_run_keeps_state
    (fetched : outcome BackendStatus.Res) (state : BackendStatus.Health) :
  BackendStatus.run true fetched state = state.
Proof.
  unfold BackendStatus.run. destruct fetched as [res|]; [|reflexivity].
  simpl. destruct (BackendStatus.res_json res); reflexivity.
Qed.

Lemma routes_forward_verbatim_witness :
  POST None failing_backend blank_stringify ping =
    Returned {| response_body := JObject [("detail", JString "boom")];
                response_status := 500 |}.
Proof.
  apply (routes_forward_verbatim None failing_backend blank_stringify ping
           (JObject [("message", JString "ping")])
           {| fetched_status := 500;
              fetched_json := Returned (JObject [("detail", JString "boom")]) |}
           (JObject [("detail", JString "boom")]));
    try reflexivity. simpl. lia.
Defined.

Lemma backend_status_ok_iff_witness :
  BackendStatus.run false
    (BackendStatus.delivered
       {| response_body := JObject [("status", JString "ok")];
          response_status := 200 |})
    BackendStatus.loading = BackendStatus.ok.
Proof.
  apply (proj1 (backend_status_ok_iff None healthy_backend
                  {| response_body := JObject [("status", JString "ok")];
                     response_status := 200 |} eq_refl)).
  exists {| fetched_status := 200;
            fetched_json := Returned (JObject [("status", JString "ok")]) |},
    (JObject [("status", JString "ok")]).
  repeat split; simpl; lia.
Defined.

Lemma chat_tester_reports_envelope_as_ok_witness :
  exists r settled,
    POST None unreachable_fetch blank_stringify ping = Returned r /\
    response_status r = 502 /\
    ChatTester.delivered (response_body r) = Some settled /\
    ChatTester.onSubmit_settled
      {| ChatTester.okPrefix := Chat.lit "OK:";
         ChatTester.errorPrefix := Chat.lit "KO:" |} settled
      ChatTester.initial =
      {| ChatTester.message := [];
         ChatTester.result := Chat.lit "OK: Backend unreachable";
         ChatTester.isLoading := false |}.
Proof.
  apply (chat_tester_reports_envelope_as_ok None unreachable_fetch
           blank_stringify ping (NetworkError "fetch failed")
           {| ChatTester.okPrefix := Chat.lit "OK:";
              ChatTester.errorPrefix := Chat.lit "KO:" |}
           ChatTester.initial).
  reflexivity.
Defined.

End ClientsMore.

(** * Further properties of the chat panel *)
Section ChatMore.
Import Chat.
Local Open Scope list_scope.

Lemma trimStart_head (s : jstring) (c : N) (r : jstring) :
  trimStart s = c :: r -> isWhiteSpace c = false.
Proof.
  induction s as [|a s IH]; simpl; [discriminate|].
  destruct (isWhiteSpace a) eqn:Ha; [exact IH|].
  intros [= <- _]. exact Ha.
Qed.

Lemma trimStart_snoc (l : jstring) (c : N) :
  isWhiteSpace c = false -> exists l', trimStart (l ++ [c]) = l' ++ [c].
Proof.
  intros Hc. induction l as [|a l IH]; simpl.
  - rewrite Hc. exists []. reflexivity.
  - destruct (isWhiteSpace a); [exact IH|]. exists (a :: l). reflexivity.
Qed.

(** What [trim] leaves, when it leaves something, begins and ends with a
    code unit that is not whitespace. *)
Lemma trim_ends (s : jstring) :
  trim s <> [] ->
  exists c r d,
    trim s = c :: r /\ isWhiteSpace c = false /\
    last (trim s) = Some d /\ isWhiteSpace d = false.
Proof.
  unfold trim, trimEnd. intros Hne.
  destruct (trimStart s) as [|c r] eqn:Hs; [contradiction Hne; reflexivity|].
  pose proof (trimStart_head _ _ _ Hs) as Hc.
  simpl rev in *.
  destruct (trimStart_snoc (rev r) c Hc) as [l' Hl'].
  rewrite Hl' in *. rewrite rev_app_distr. simpl.
  destruct (trimStart (rev r ++ [c])) as [|d x] eqn:Hd.
  - destruct l'; discriminate.
  - pose proof (trimStart_head _ _ _ Hd) as Hws.
    exists c, (rev l'), d. repeat split; [exact Hc| |exact Hws].
    change (c :: rev l') with (rev [c] ++ rev l').
    rewrite <- rev_app_distr, <- Hl'. simpl. apply last_snoc.
Qed.

Lemma handleSend_accepts (locale : string) (now : Z) (stamp : jstring)
    (st : State) :
  trim (input st) <> [] -> isProcessing st = false -> booted st = true ->
  handleSend locale now stamp st =
    ({| messages := messages st ++
          [ {| id := lit "u-" ++ lit (pretty now); role := user;
               content := trim (input st); ts := stamp |} ];
        input := [];
        isProcessing := true;
        typingText := typingText st;
        typingId := typingId st;
        isDisconnecting := isDisconnecting st;
        booted := booted st;
        sessionId := sessionId st;
        metrics := add_tokens (metrics st) (trim (input st));
        uptime := uptime st;
        pendingTextRef := pendingTextRef st |},
     [ {| url := "/api/chat"; call_method := "POST";
          call_headers := [("Content-Type", "application/json")];
          body_message := trim (input st);
          body_session_id := sessionId st;
          body_locale := locale |} ]).
Proof.
  intros Hne Hp Hb. unfold handleSend. cbv zeta. rewrite Hp, Hb.
  destruct (trim (input st)); [contradiction Hne; reflexivity|]. reflexivity.
Qed.

Lemma handleSend_cases (locale : string) (now : Z) (stamp : jstring)
    (st : State) :
  handleSend locale now stamp st = (st, []) \/
  (trim (input st) <> [] /\ isProcessing st = false /\ booted st = true).
Proof.
  destruct (trim (input st)) as [|c r] eqn:Ht.
  - left. apply handleSend_guard. left. rewrite Ht. reflexivity.
  - destruct (isProcessing st) eqn:Hp;
      [left; apply handleSend_guard; auto|].
    destruct (booted st) eqn:Hb;
      [|left; apply handleSend_guard; auto].
    right. repeat split. discriminate.
Qed.

(** X18: whatever the panel posts to [/api/chat] is the trimmed input: it is
    never empty and never begins or ends with whitespace; and one submit
    posts at most one message. *)
Theorem posted_message_is_trimmed (locale : string) (now : Z)
    (stamp : jstring) (st : State) (call : FetchCall) :
  In call (snd (handleSend locale now stamp st)) ->
  snd (handleSend locale now stamp st) = [call] /\
  url call = "/api/chat" /\
  body_message call = trim (input st) /\
  exists c r d,
    body_message call = c :: r /\ isWhiteSpace c = false /\
    last (body_message call) = Some d /\ isWhiteSpace d = false.
Proof.
  destruct (handleSend_cases locale now stamp st) as [-> | (Hne & Hp & Hb)];
    [intros []|].
  rewrite (handleSend_accepts _ _ _ _ Hne Hp Hb). simpl.
  intros [<- | []]. simpl. repeat split. apply trim_ends, Hne.
Qed.

Lemma posted_message_is_trimmed_witness :
  let st := {| messages := []; input := lit " hi  there ";
               isProcessing := false; typingText := []; typingId := None;
               isDisconnecting := false; booted := true;
               sessionId := lit "a3f9";
               metrics := {| latency := 42; tokenGen := 38;
                             memory_tenths := 42; tokensUsed := 0 |};
               uptime := 7; pendingTextRef := [] |} in
  let call := {| url := "/api/chat"; call_method := "POST";
                 call_headers := [("Content-Type", "application/json")];
                 body_message := lit "hi  there";
                 body_session_id := lit "a3f9"; body_locale := "fr" |} in
  snd (handleSend "fr" 17 (lit "12:00:00") st) = [call].
Proof.
  intros st call.
  apply (posted_message_is_trimmed "fr" 17 (lit "12:00:00") st call).
  vm_compute. left. reflexivity.
Defined.

(** X19: once the panel shows the state that a submit produced, a further
    submit is ignored: no second message is posted while the first one is
    being processed. *)
Theorem resubmit_is_ignored (locale : string) (now now' : Z)
    (stamp stamp' : jstring) (st : State) :
  handleSend locale now' stamp' (fst (handleSend locale now stamp st))
    = (fst (handleSend locale now stamp st), []).
Proof.
  destruct (handleSend_cases locale now stamp st) as [H | (Hne & Hp & Hb)].
  - rewrite H. simpl.
    destruct (handleSend_cases locale now' stamp' st)
      as [H' | (Hne & Hp & Hb)]; [exact H'|].
    rewrite (handleSend_accepts _ _ _ _ Hne Hp Hb) in H.
    injection H as _ H. discriminate.
  - rewrite (handleSend_accepts _ _ _ _ Hne Hp Hb). simpl.
    apply handleSend_guard. right. left. reflexivity.
Qed.

End ChatMore.

(** * The settling of the chat request and the typewriter *)
Section ChatSettling.
Import Chat.
Local Open Scope list_scope.

Variable null_read_message : string -> jstring.

Local Abbreviation awaited_reply := (awaited_reply null_read_message).
Local Abbreviation handleSend_settled :=
  (handleSend_settled null_read_message).

Lemma pick_truthy (v : option Value) (fallback : Value) :
  value_truthy fallback = true -> value_truthy (pick v fallback) = true.
Proof.
  intros Hf. destruct v as [x|]; simpl; [|exact Hf].
  destruct (value_truthy x) eqn:Hx; [exact Hx | exact Hf].
Qed.

(** The value taken as the reply is truthy. *)
Lemma reply_truthy (settled : Settled) (v : Value) :
  awaited_reply settled = Reply v -> value_truthy v = true.
Proof.
  unfold Chat.awaited_reply.
  destruct settled as [[msg|]|status parsed]; try discriminate.
  cbv zeta. destruct (negb (ok status)).
  - destruct (property "detail" _) as [[[| | |[|c s]| |]|]|]; discriminate.
  - destruct (property "response" _) as [response|]; [|discriminate].
    intros [= <-]. repeat apply pick_truthy. reflexivity.
Qed.

(** A reply is only taken from an answer with a 2xx status. *)
Lemma reply_from_ok_answer (settled : Settled) (v : Value) :
  awaited_reply settled = Reply v ->
  exists status parsed, settled = Answered status parsed /\ ok status = true.
Proof.
  unfold Chat.awaited_reply.
  destruct settled as [[msg|]|status parsed]; try discriminate.
  cbv zeta. destruct (ok status) eqn:Hok; simpl.
  - intros _. eauto.
  - destruct (property "detail" _) as [[[| | |[|c s]| |]|]|]; discriminate.
Qed.

Lemma settled_shape (now : Z) (stamp : jstring) (settled : Settled)
    (st st' : State) :
  handleSend_settled now stamp settled st = Some st' ->
  exists aiMsg,
    messages st' = messages st ++ [aiMsg] /\
    role aiMsg = ai /\
    content aiMsg <> [] /\
    pendingTextRef st' = content aiMsg /\
    typingId st' = Some (id aiMsg) /\
    id aiMsg <> [] /\
    isProcessing st' = isProcessing st /\
    booted st' = booted st /\
    input st' = input st.
Proof.
  unfold Chat.handleSend_settled. cbv zeta.
  destruct (awaited_reply settled) as [v|msg] eqn:Ha.
  - pose proof (reply_truthy _ _ Ha) as Ht.
    destruct v as [| | |reply| |]; try discriminate.
    intros [= <-]. eexists. split; [reflexivity|]. simpl.
    repeat split; try discriminate.
    intros ->. discriminate Ht.
  - intros [= <-]. eexists. split; [reflexivity|]. simpl.
    repeat split; discriminate.
Qed.


(** X21: an answer whose status is not 2xx never loses the panel.  It is
    shown as [[ERR]] followed by the body's [detail] when that is a
    non-empty string, by the engine's message for reading [detail] from
    [null] when the body is [null], and by [HTTP_<status>] otherwise; the
    body's [response], [reply] and [message] are not looked at and no token
    is counted. *)
Theorem error_answer_is_shown_as_ERR (now : Z) (stamp : jstring)
    (status : Z) (parsed : option Value) (st : State) :
  ok status = false ->
  exists st',
    handleSend_settled now stamp (Answered status parsed) st = Some st' /\
    pendingTextRef st'
      = lit "[ERR] " ++
        match parsed with
        | Some VNull => null_read_message "detail"
        | Some (VObject fields) =>
            match lookup_value "detail" fields with
            | Some (VString (c :: s)) => c :: s
            | _ => lit "HTTP_" ++ lit (pretty status)
            end
        | _ => lit "HTTP_" ++ lit (pretty status)
        end /\
    metrics st' = metrics st.
Proof.
  intros Hok. unfold Chat.handleSend_settled, Chat.awaited_reply.
  cbv zeta. rewrite Hok. cbn [negb].
  destruct parsed as [[| | | | |fields]|]; simpl;
    try (eexists; split; [reflexivity | split; reflexivity]).
  destruct (lookup_value "detail" fields) as [[| | |[|c s]| |]|];
    eexists; (split; [reflexivity | split; reflexivity]).
Qed.

Lemma ticks_without_interval (n : nat) (st : State) :
  typewriter_ticks n None st = (st, None).
Proof. destruct n; reflexivity. Qed.

Lemma ticks_from (text : jstring) (st0 : State) (n i : nat) :
  (i < length text)%nat ->
  typewriter_ticks n (Some {| fullText := text; idx := i |})
    (set_typingText (take i text) st0) =
    if (i + n <? length text)%nat
    then (set_typingText (take (i + n) text) st0,
          Some {| fullText := text; idx := i + n |})
    else (end_typing (set_typingText text st0), None).
Proof.
  revert i. induction n as [|n IH]; intros i Hi.
  - rewrite Nat.add_0_r. apply Nat.ltb_lt in Hi. rewrite Hi. reflexivity.
  - simpl typewriter_ticks. unfold typewriter_tick. simpl fullText. simpl idx.
    change (set_typingText (take (S i) text)
              (set_typingText (take i text) st0))
      with (set_typingText (take (S i) text) st0).
    replace (i + S n)%nat with (S i + n)%nat by lia.
    destruct (length text <=? S i)%nat eqn:Hlast.
    + apply Nat.leb_le in Hlast.
      rewrite ticks_without_interval, (take_ge text (S i)) by lia.
      destruct (S i + n <? length text)%nat eqn:Hlt; [|reflexivity].
      apply Nat.ltb_lt in Hlt. lia.
    + apply Nat.leb_gt in Hlast. apply (IH (S i)). lia.
Qed.

Lemma typewriter_effect_starts (st : State) (typing : jstring) :
  typingId st = Some typing -> typing <> [] -> pendingTextRef st <> [] ->
  typewriter_effect st =
    (set_typingText (take 0 (pendingTextRef st)) st,
     Some {| fullText := pendingTextRef st; idx := 0 |}).
Proof.
  intros Hid Htyping Hne. unfold typewriter_effect. rewrite Hid.
  destruct typing; [contradiction Htyping; reflexivity|].
  destruct (pendingTextRef st); [contradiction Hne; reflexivity|].
  reflexivity.
Qed.

Lemma length_nonempty (text : jstring) : text <> [] -> (0 < length text)%nat.
Proof. destruct text; [congruence | simpl; lia]. Qed.

(** X22: with a typing id that is not empty and a pending text that is not
    empty, the typewriter reveals one more code unit of the pending text at
    each firing; at the firing that reveals the last one it clears itself,
    drops the typing id and ends the processing. *)
Theorem typewriter_reveals_then_unlocks
    (st : State) (typing : jstring) (k : nat) :
  typingId st = Some typing ->
  typing <> [] ->
  pendingTextRef st <> [] ->
  typewriter_ticks k (snd (typewriter_effect st)) (fst (typewriter_effect st))
    = if (k <? length (pendingTextRef st))%nat
      then (set_typingText (take k (pendingTextRef st)) st,
            Some {| fullText := pendingTextRef st; idx := k |})
      else (end_typing (set_typingText (pendingTextRef st) st), None).
Proof.
  intros Hid Htyping Hne.
  rewrite (typewriter_effect_starts _ _ Hid Htyping Hne). simpl fst.
  simpl snd. apply (ticks_from (pendingTextRef st) st k 0).
  apply length_nonempty, Hne.
Qed.

(** Without a typing id, the empty string included, or without a pending
    text, the effect starts no interval and changes nothing. *)
Lemma typewriter_effect_idle (st : State) :
  typingId st = None \/ typingId st = Some [] \/ pendingTextRef st = [] ->
  typewriter_effect st = (st, None).
Proof.
  unfold typewriter_effect. intros [-> | [-> | Hp]]; try reflexivity.
  destruct (typingId st) as [[|c typing]|]; try reflexivity.
  rewrite Hp. reflexivity.
Qed.

(** X23: a whole exchange.  From a booted, idle panel with an input that is
    not blank: the submit, a settling of the request that does not lose the
    panel, and the firings of the typewriter bring the panel back to idle,
    with the input cleared, the user's message and one [ai] message
    appended, and every row showing its full content. *)
Theorem exchange_returns_to_idle
    (locale : string) (now now' : Z) (stamp stamp' : jstring)
    (settled : Settled) (st answered : State) :
  trim (input st) <> [] ->
  isProcessing st = false ->
  booted st = true ->
  handleSend_settled now' stamp' settled
    (fst (handleSend locale now stamp st)) = Some answered ->
  let finished :=
    typewriter_ticks (length (pendingTextRef answered))
      (snd (typewriter_effect answered)) (fst (typewriter_effect answered)) in
  snd finished = None /\
  isProcessing (fst finished) = false /\
  booted (fst finished) = true /\
  typingId (fst finished) = None /\
  input (fst finished) = [] /\
  (exists userMsg aiMsg,
     messages (fst finished) = messages st ++ [userMsg; aiMsg] /\
     role userMsg = user /\ content userMsg = trim (input st) /\
     role aiMsg = ai /\ typingText (fst finished) = content aiMsg) /\
  forall msg, shown (fst finished) msg = content msg.
Proof.
  intros Hne Hp Hb Hs finished.
  destruct (settled_shape _ _ _ _ _ Hs)
    as (aiMsg & Hmsgs & Hrole & Hcontent & Hpending & Hid & Hidne
        & _ & Hbooted & Hinput).
  assert (Hfin : finished
            = (end_typing (set_typingText (pendingTextRef answered) answered),
               None)).
  { unfold finished.
    rewrite (typewriter_effect_starts _ _ Hid Hidne)
      by (rewrite Hpending; exact Hcontent).
    simpl fst. simpl snd.
    rewrite (ticks_from (pendingTextRef answered) answered _ 0)
      by (apply length_nonempty; rewrite Hpending; exact Hcontent).
    rewrite Nat.ltb_irrefl. reflexivity. }
  rewrite Hfin. simpl.
  rewrite (handleSend_accepts _ _ _ _ Hne Hp Hb) in Hmsgs, Hbooted, Hinput.
  simpl in Hmsgs, Hbooted, Hinput.
  repeat split.
  - rewrite Hbooted. exact Hb.
  - exact Hinput.
  - eexists. exists aiMsg. rewrite Hmsgs.
    rewrite <- app_assoc. repeat split; [exact Hrole | exact Hpending].
Qed.

End ChatSettling.

Section ChatSettlingInstances.
Import Chat.
Local Open Scope list_scope.

Lemma error_answer_is_shown_as_ERR_witness :
  exists st',
    handleSend_settled v8_null_read_message 17 (lit "12:00:00")
      (Answered 502
         (Some (VObject [("message", VString (lit "Backend unreachable"))])))
      initial = Some st' /\
    pendingTextRef st' = lit "[ERR] HTTP_502" /\
    metrics st' = metrics initial.
Proof.
  apply (error_answer_is_shown_as_ERR v8_null_read_message 17
           (lit "12:00:00") 502
           (Some (VObject [("message", VString (lit "Backend unreachable"))]))
           initial).
  reflexivity.
Defined.

(** The case of a [null] body, with the message of V8. *)
Example null_body_is_shown_as_TypeError :
  pendingTextRef <$>
    handleSend_settled v8_null_read_message 17 (lit "12:00:00")
      (Answered 500 (Some VNull)) initial
  = Some (lit "[ERR] Cannot read properties of null (reading 'detail')").
Proof. reflexivity. Qed.

(** The case of a reply that is not a string: the panel is lost. *)
Example number_reply_loses_the_panel :
  handleSend_settled v8_null_read_message 17 (lit "12:00:00")
    (Answered 200 (Some (VObject [("response", VNumber 42)]))) initial
  = None.
Proof. reflexivity. Qed.

Lemma typewriter_reveals_then_unlocks_witness :
  let st := {| messages := []; input := []; isProcessing := true;
               typingText := []; typingId := Some (lit "ai-17");
               isDisconnecting := false; booted := true;
               sessionId := lit "a3f9";
               metrics := {| latency := 42; tokenGen := 38;
                             memory_tenths := 42; tokensUsed := 0 |};
               uptime := 7; pendingTextRef := lit "Salut" |} in
  typingText (fst (typewriter_ticks 3 (snd (typewriter_effect st))
                     (fst (typewriter_effect st)))) = lit "Sal".
Proof.
  intros st.
  rewrite (typewriter_reveals_then_unlocks st (lit "ai-17") 3);
    [reflexivity | reflexivity | discriminate | discriminate].
Defined.

Lemma exchange_returns_to_idle_witness :
  let st := {| messages := []; input := lit " bonjour ";
               isProcessing := false; typingText := []; typingId := None;
               isDisconnecting := false; booted := true;
               sessionId := lit "a3f9";
               metrics := {| latency := 42; tokenGen := 38;
                             memory_tenths := 42; tokensUsed := 0 |};
               uptime := 7; pendingTextRef := [] |} in
  let answered :=
    {| messages :=
         [ {| id := lit "u-17"; role := user; content := lit "bonjour";
              ts := lit "12:00:00" |};
           {| id := lit "ai-18"; role := ai;
              content := lit "[ERR] Unknown error"; ts := lit "12:00:01" |} ];
       input := []; isProcessing := true; typingText := [];
       typingId := Some (lit "ai-18"); isDisconnecting := false;
       booted := true; sessionId := lit "a3f9";
       metrics := {| latency := 42; tokenGen := 38; memory_tenths := 42;
                     tokensUsed := 3 |};
       uptime := 7; pendingTextRef := lit "[ERR] Unknown error" |} in
  isProcessing
    (fst (typewriter_ticks (length (pendingTextRef answered))
            (snd (typewriter_effect answered))
            (fst (typewriter_effect answered)))) = false.
Proof.
  intros st answered.
  apply (exchange_returns_to_idle v8_null_read_message "fr" 17 18
           (lit "12:00:00") (lit "12:00:01") (Rejected None) st answered);
    [discriminate | reflexivity | reflexivity | vm_compute; reflexivity].
Defined.

End ChatSettlingInstances.

(** * The boot sequence of the chat panel *)
Section ChatBoot.
Import Chat.
Local Open Scope list_scope.

Lemma boot_fired_from_spec (boots : list jstring) (hexes stamps : nat -> jstring)
    (lines : list jstring) :
  forall (i k : nat) (st : State),
    (i + length lines = length boots)%nat ->
    booted (boot_fired_from boots i lines hexes stamps k st)
      = booted st || (negb (bool_decide (lines = []))
                      && (length lines <=? k)%nat) /\
    messages (boot_fired_from boots i lines hexes stamps k st)
      = messages st ++
        imap (fun j text =>
                boot_message text (hexes (i + j)%nat) (stamps (i + j)%nat)
                  (i + j))
          (take k lines).
Proof.
  induction lines as [|text later IH]; intros i k st Hlen.
  - destruct k; simpl; rewrite orb_false_r, app_nil_r; auto.
  - destruct k as [|k]; [simpl; rewrite orb_false_r, app_nil_r; auto|].
    set (st' := boot_timer boots false i text (hexes i) (stamps i) st).
    change (boot_fired_from boots i (text :: later) hexes stamps (S k) st)
      with (boot_fired_from boots (S i) later hexes stamps k st').
    destruct (IH (S i) k st') as (Hbooted & Hmessages);
      [simpl in Hlen; lia|].
    rewrite Hbooted, Hmessages. unfold st'. simpl in Hlen.
    split.
    + simpl. destruct later as [|text2 later].
      * simpl in Hlen.
        replace (Z.of_nat i =? Z.of_nat (length boots) - 1)%Z with true
          by (symmetry; apply Z.eqb_eq; lia).
        simpl. rewrite orb_true_r. reflexivity.
      * simpl in Hlen.
        replace (Z.of_nat i =? Z.of_nat (length boots) - 1)%Z with false
          by (symmetry; apply Z.eqb_neq; lia).
        reflexivity.
    + cbn [boot_timer messages take]. rewrite imap_cons, <- app_assoc.
      cbn [app]. rewrite Nat.add_0_r. do 2 f_equal.
      apply imap_ext. intros j text' _. simpl.
      replace (i + S j)%nat with (S (i + j)) by lia. reflexivity.
Qed.

(** X24: the boot timers append the boot lines in order, one message each:
    the [j]-th message appended has the role [system], the [j]-th boot line
    as content and the id [boot-<hex>-<j>].  Only the last timer enables the
    panel: after fewer firings than there are lines, every submit is
    ignored, whatever was typed. *)
Theorem boot_enables_the_panel_last
    (boots : list jstring) (hexes stamps : nat -> jstring) (k : nat)
    (st : State) :
  booted st = false ->
  messages (boot_fired boots hexes stamps k st)
    = messages st ++
      imap (fun j text =>
              {| id := lit "boot-" ++ hexes j ++ lit "-" ++ lit (pretty j);
                 role := system; content := text; ts := stamps j |})
        (take k boots) /\
  (booted (boot_fired boots hexes stamps k st) = true
   <-> boots <> [] /\ (length boots <= k)%nat) /\
  ((k < length boots)%nat ->
   forall locale now stamp,
     handleSend locale now stamp (boot_fired boots hexes stamps k st)
       = (boot_fired boots hexes stamps k st, [])).
Proof.
  intros Hb. unfold boot_fired.
  destruct (boot_fired_from_spec boots hexes stamps boots 0 k st eq_refl)
    as (Hbooted & Hmessages).
  rewrite Hb in Hbooted. simpl in Hbooted.
  split; [exact Hmessages|]. split.
  - rewrite Hbooted, andb_true_iff, negb_true_iff, bool_decide_eq_false,
      Nat.leb_le. reflexivity.
  - intros Hk locale now stamp. apply handleSend_guard. right. right.
    rewrite Hbooted. apply andb_false_iff. right. apply Nat.leb_gt. exact Hk.
Qed.

Lemma boot_enables_the_panel_last_witness :
  messages (boot_fired [lit "un"; lit "deux"; lit "trois"; lit "quatre"]
              (fun _ => lit "beef") (fun _ => lit "12:00:00") 2 initial)
    = [ {| id := lit "boot-beef-0"; role := system; content := lit "un";
           ts := lit "12:00:00" |};
        {| id := lit "boot-beef-1"; role := system; content := lit "deux";
           ts := lit "12:00:00" |} ].
Proof.
  apply (boot_enables_the_panel_last
           [lit "un"; lit "deux"; lit "trois"; lit "quatre"]
           (fun _ => lit "beef") (fun _ => lit "12:00:00") 2 initial).
  reflexivity.
Defined.

End ChatBoot.
